(** * Steering-vector extraction script: a shallow embedding

    The script [scripts/fetch_steering_vectors.py] tokenises two groups of
    sequences, runs an encoder over them, averages the hidden states of
    every encoder layer over each group and subtracts the two averages.

    The embedding follows the script statement by statement.  Python
    exceptions are values of type [exn].  What the script cannot know (the
    files, the tokenizer, the network, NumPy's reduction, argparse, the
    checkpoint loaders) is a field of a [World] record or a function
    argument; pandas, the torch shape operations and NumPy broadcasting
    are modelled as far as the script uses them.  Calls that touch files,
    the tokenizer or the network leave an [event] in a trace, so that
    "this error is raised before anything else happens" is a statement
    about the trace.  Strings are sequences of code points below 256. *)

From Stdlib Require Import ZArith List String Ascii Bool Lia.
From Stdlib Require Import Floats.SpecFloat.
From stdpp Require Import base list strings gmap.

Import ListNotations.
Local Open Scope string_scope.
Local Open Scope Z_scope.

(** ** Strings *)

Module PyStr.

(** [str.lower] on code points below 256: the ASCII capitals and the
    Latin-1 capitals (all of 192..222 except the multiplication sign 215)
    move up by 32; nothing else changes. *)
Definition lower_char (c : ascii) : ascii :=
  let n := N_of_ascii c in
  if ((65 <=? n) && (n <=? 90))%N
     || ((192 <=? n) && (n <=? 222) && negb (n =? 215))%N
  then ascii_of_N (n + 32) else c.

Fixpoint lower (s : string) : string :=
  match s with
  | EmptyString => EmptyString
  | String c s' => String (lower_char c) (lower s')
  end.

(** [sep.join(parts)] *)
Definition join (sep : string) (parts : list string) : string :=
  String.concat sep parts.

(** The slice [s[j : j + k]]. *)
Definition slice (j k : nat) (s : string) : string := substring j k s.

End PyStr.

(** ** Exceptions, results, traces *)

Inductive exn :=
| ValueError (msg : string)
| AssertionError (line : nat)     (* the [assert] statement of that line failed *)
| NameError (name : string)
| UnboundLocalError (name : string)
| KeyError (key : string)
| TypeError (msg : string)
| IndexError (msg : string)
| RuntimeError (msg : string)
| OverflowError (msg : string)
| AttributeError (name : string)
| External (what : string).       (* raised inside a third-party package *)

(** [UnboundLocalError] is a subclass of [NameError]: both report a name
    that has no binding when it is read. *)
Definition is_name_error (e : exn) : bool :=
  match e with
  | NameError _ | UnboundLocalError _ => true
  | _ => false
  end.

Inductive result (A : Type) :=
| Ok (a : A)
| Raise (e : exn).
Arguments Ok {A} a.
Arguments Raise {A} e.

Definition rbind {A B} (r : result A) (k : A -> result B) : result B :=
  match r with
  | Ok a => k a
  | Raise e => Raise e
  end.

Fixpoint rmapM {A B} (f : A -> result B) (l : list A) : result (list B) :=
  match l with
  | [] => Ok []
  | x :: l' => rbind (f x) (fun y => rbind (rmapM f l') (fun ys => Ok (y :: ys)))
  end.

Fixpoint rzip_with {A B C} (f : A -> B -> result C) (l : list A) (k : list B)
  : result (list C) :=
  match l, k with
  | x :: l', y :: k' =>
      rbind (f x y) (fun z => rbind (rzip_with f l' k') (fun zs => Ok (z :: zs)))
  | _, _ => Ok []
  end.

(** Reading a local variable: a slot that no statement has filled yet
    raises [UnboundLocalError]. *)
Definition load_local {A} (name : string) (slot : option A) : result A :=
  match slot with
  | Some v => Ok v
  | None => Raise (UnboundLocalError name)
  end.

(** What a call into a third-party package comes back with.  The script
    catches nothing, so all it needs of a foreign exception is its text. *)
Inductive answer (A : Type) :=
| Returns (a : A)
| Throws (what : string).
Arguments Returns {A} a.
Arguments Throws {A} what.

Definition of_answer {A} (x : answer A) : result A :=
  match x with
  | Returns a => Ok a
  | Throws what => Raise (External what)
  end.

(** What the outside world sees of a run, in order. *)
Inductive event :=
| EvParse (path : string)          (* SeqIO.parse(path, "fasta") *)
| EvRecords                        (* a FASTA iterator is read to its end *)
| EvEval                           (* model.eval() *)
| EvTokenize (texts : list string) (* tokenizer(texts, ...) *)
| EvForward (rows : nat)           (* model(batch, output_hidden_states=True) *)
| EvPrint (msg : string)
| EvPrintShape (shape : list nat)  (* print(array.shape) *)
| EvParseArgs                      (* parser.parse_args() *)
| EvLoad (what : string)           (* checkpoint, adapter, tokenizer loading *)
| EvTo (device : string)           (* model.to(device) *)
| EvMakedirs (path : string)
| EvSave (path : string).          (* np.save *)

Definition trace := list event.

(** A computation yields its outcome and the events it caused; after a
    [Raise] nothing more happens. *)
Definition M (A : Type) : Type := result A * trace.

Definition ret {A} (a : A) : M A := (Ok a, []).
Definition raise {A} (e : exn) : M A := (Raise e, []).
Definition bind {A B} (m : M A) (k : A -> M B) : M B :=
  match m with
  | (Ok a, tr) => let (r, tr') := k a in (r, (tr ++ tr')%list)
  | (Raise e, tr) => (Raise e, tr)
  end.
Definition lift {A} (r : result A) : M A := (r, []).
Definition emit (e : event) : M unit := (Ok tt, [e]).
(** A call into a package: the event is recorded, then the call's outcome. *)
Definition extern {A} (e : event) (x : answer A) : M A := (of_answer x, [e]).

Declare Scope py_scope.
Delimit Scope py_scope with py.
Notation "'let*' x ':=' m 'in' k" := (bind m (fun x => k))
  (at level 10, x pattern, m at level 100, k at level 200) : py_scope.
Notation "m ';;' k" := (bind m (fun _ => k))
  (at level 100, k at level 200, right associativity) : py_scope.
Notation "'let?' x ':=' r 'in' k" := (rbind r (fun x => k))
  (at level 10, x pattern, r at level 100, k at level 200) : py_scope.
Local Open Scope py_scope.

Fixpoint mapM {A B} (f : A -> M B) (l : list A) : M (list B) :=
  match l with
  | [] => ret []
  | x :: l' => bind (f x) (fun y => bind (mapM f l') (fun ys => ret (y :: ys)))
  end.

(** ** Python floats (binary64) *)

Module Float64.

Definition prec : Z := 53.
Definition emax : Z := 1024.

(** [float(z)] for an integer [z], correctly rounded. *)
Definition of_Z (z : Z) : spec_float := binary_normalize prec emax z 0 false.

Definition add := SFadd prec emax.
Definition mul := SFmul prec emax.
Definition div := SFdiv prec emax.

Definition is_nan (x : spec_float) : bool :=
  match x with S754_nan => true | _ => false end.

(** [int(x)]: truncation towards zero; NaN and the infinities raise. *)
Definition to_int (x : spec_float) : result Z :=
  match x with
  | S754_zero _ => Ok 0
  | S754_finite s m e => Ok (cond_Zopp s (Z.shiftl (Zpos m) e))
  | S754_nan => Raise (ValueError "cannot convert float NaN to integer")
  | S754_infinity _ => Raise (OverflowError "cannot convert float infinity to integer")
  end.

(** The literal [0.1]: the binary64 number nearest to one tenth. *)
Definition lit_0_1 : spec_float := S754_finite false 7205759403792794 (-56).

End Float64.

(** ** The score table (a pandas DataFrame)

    Only the operations the script applies to [df] are modelled: column
    read and write, comparison of a column with a number, row selection by
    a mask, [len], [nlargest] and [nsmallest]. *)

Module Pandas.

Inductive cell :=
| CStr (s : string)
| CFloat (x : spec_float)
| CInt (z : Z).

(** A table has a header and rows; the cells of a row stand in the order
    of the header, and a cell that is missing reads as NaN. *)
Record DataFrame := {
  df_columns : list string;
  df_rows : list (list cell)
}.

Definition Series := list cell.

Definition nan_cell : cell := CFloat S754_nan.

Fixpoint index_of (col : string) (columns : list string) : option nat :=
  match columns with
  | [] => None
  | c :: columns' =>
      if String.eqb col c then Some 0%nat else option_map S (index_of col columns')
  end.

(** [df[col]] *)
Definition getitem (df : DataFrame) (col : string) : result Series :=
  match index_of col (df_columns df) with
  | Some j => Ok (map (fun r => nth j r nan_cell) (df_rows df))
  | None => Raise (KeyError col)
  end.

(** [df[col] = values]: the table object is updated in place; a new column
    goes to the end of the header. *)
Definition setitem (df : DataFrame) (col : string) (values : Series) : result DataFrame :=
  if (length values =? length (df_rows df))%nat
  then
    let width := length (df_columns df) in
    match index_of col (df_columns df) with
    | Some j =>
        Ok {| df_columns := df_columns df;
              df_rows := zip_with (fun r v => <[j := v]> (resize width nan_cell r))
                                  (df_rows df) values |}
    | None =>
        Ok {| df_columns := (df_columns df ++ [col])%list;
              df_rows := zip_with (fun r v => (resize width nan_cell r ++ [v])%list)
                                  (df_rows df) values |}
    end
  else Raise (ValueError "Length of values does not match length of index").

(** [len(df)] *)
Definition len (df : DataFrame) : Z := Z.of_nat (length (df_rows df)).

(** 64-bit integer columns wrap around. *)
Definition wrap64 (z : Z) : Z := (z + 2 ^ 63) mod 2 ^ 64 - 2 ^ 63.

(** [- series] *)
Definition neg_cell (c : cell) : result cell :=
  match c with
  | CFloat x => Ok (CFloat (SFopp x))
  | CInt z => Ok (CInt (wrap64 (- z)))
  | CStr _ => Raise (TypeError "bad operand type for unary -: 'str'")
  end.

(** [k * series] for a Python float [k] *)
Definition scale_cell (k : spec_float) (c : cell) : result cell :=
  match c with
  | CFloat x => Ok (CFloat (Float64.mul k x))
  | CInt z => Ok (CFloat (Float64.mul k (Float64.of_Z z)))
  | CStr _ => Raise (TypeError "can't multiply sequence by non-int of type 'float'")
  end.

(** [series + series], cell by cell *)
Definition add_cell (a b : cell) : result cell :=
  match a, b with
  | CFloat x, CFloat y => Ok (CFloat (Float64.add x y))
  | CInt z, CFloat y => Ok (CFloat (Float64.add (Float64.of_Z z) y))
  | CFloat x, CInt z => Ok (CFloat (Float64.add x (Float64.of_Z z)))
  | CInt z, CInt w => Ok (CInt (wrap64 (z + w)))
  | _, _ => Raise (TypeError "unsupported operand type(s) for +")
  end.

(** [series >= k] and [series <= k] for an integer [k] *)
Definition ge_cell (k : Z) (c : cell) : result bool :=
  match c with
  | CInt z => Ok (k <=? z)
  | CFloat x => Ok (SFleb (Float64.of_Z k) x)
  | CStr _ => Raise (TypeError "'>=' not supported between instances of 'str' and 'int'")
  end.

Definition le_cell (k : Z) (c : cell) : result bool :=
  match c with
  | CInt z => Ok (z <=? k)
  | CFloat x => Ok (SFleb x (Float64.of_Z k))
  | CStr _ => Raise (TypeError "'<=' not supported between instances of 'str' and 'int'")
  end.

(** [df[mask]]: the rows at which the mask is true, in order. *)
Definition select_rows (df : DataFrame) (mask : list bool) : DataFrame :=
  {| df_columns := df_columns df;
     df_rows := map snd (List.filter fst (zip mask (df_rows df))) |}.

(** *** Ranking *)

Definition is_nan_cell (c : cell) : bool :=
  match c with CFloat x => Float64.is_nan x | _ => false end.

Definition is_float_cell (c : cell) : bool :=
  match c with CFloat _ => true | _ => false end.

Definition is_int_cell (c : cell) : bool :=
  match c with CInt _ => true | _ => false end.

(** A column can be ranked when it is all floats or all integers. *)
Definition numeric_dtype (s : Series) : bool :=
  forallb is_float_cell s || forallb is_int_cell s.

(** [a > b] on the cells of a numeric column. *)
Definition cell_gtb (a b : cell) : bool :=
  match a, b with
  | CFloat x, CFloat y => SFltb y x
  | CInt z, CInt w => w <? z
  | _, _ => false
  end.

Fixpoint insert_sorted {A} (ahead : A -> A -> bool) (x : A) (l : list A) : list A :=
  match l with
  | [] => [x]
  | y :: l' => if ahead y x then y :: insert_sorted ahead x l' else x :: l
  end.

(** Stable: of two rows that tie, the one that came first stays first. *)
Definition stable_sort {A} (ahead : A -> A -> bool) (l : list A) : list A :=
  foldr (insert_sorted ahead) [] l.

(** [df.nlargest(n, col)] and [df.nsmallest(n, col)]: the first [n] rows of
    the table ordered by [col] (descending for [nlargest], ascending for
    [nsmallest]), ties in table order, rows whose value is NaN last. *)
Definition select_n (ahead : cell -> cell -> bool) (n : Z) (col : string)
    (df : DataFrame) : result DataFrame :=
  let? values := getitem df col in
  if numeric_dtype values then
    let keyed := zip values (df_rows df) in
    let present := List.filter (fun p => negb (is_nan_cell (fst p))) keyed in
    let missing := List.filter (fun p => is_nan_cell (fst p)) keyed in
    let ranked := (stable_sort (fun p q => ahead (fst p) (fst q)) present ++ missing)%list in
    Ok {| df_columns := df_columns df;
          df_rows := map snd (firstn (Z.to_nat n) ranked) |}
  else Raise (TypeError "Column has dtype object, cannot use method with this dtype").

Definition nlargest (n : Z) (col : string) (df : DataFrame) : result DataFrame :=
  select_n cell_gtb n col df.

Definition nsmallest (n : Z) (col : string) (df : DataFrame) : result DataFrame :=
  select_n (fun a b => cell_gtb b a) n col df.

End Pandas.

(** ** Tensors

    Token ids come as a torch tensor with its reported dimensions;
    activations are nested lists, outermost dimension first, with floats
    of the format the network computes in. *)

Module Tensor.

Record IdTensor := {
  dims : list nat;
  rows : list (list Z)
}.

(** [t.size(k)] *)
Definition size (t : IdTensor) (k : nat) : result nat :=
  match nth_error (dims t) k with
  | Some d => Ok d
  | None => Raise (IndexError "Dimension out of range")
  end.

(** [t[i : i + b]], a slice along the first dimension *)
Definition slice_rows (t : IdTensor) (i b : nat) : result IdTensor :=
  match dims t with
  | [] => Raise (IndexError "slice() cannot be applied to a 0-dim tensor.")
  | d :: ds => Ok {| dims := Nat.min b (d - i) :: ds;
                     rows := firstn b (skipn i (rows t)) |}
  end.

Definition T1 := list spec_float.
Definition T2 := list T1.
Definition T3 := list T2.
Definition T4 := list T3.

Definition shape2 (t : T2) : list nat := [length t; length (hd [] t)].
Definition shape3 (t : T3) : list nat := length t :: shape2 (hd [] t).
Definition shape4 (t : T4) : list nat := length t :: shape3 (hd [] t).

(** [torch.stack(ts, dim=0)] *)
Definition torch_stack (ts : list T3) : result T4 :=
  match ts with
  | [] => Raise (RuntimeError "stack expects a non-empty TensorList")
  | t :: rest =>
      if forallb (fun u => bool_decide (shape3 u = shape3 t)) rest
      then Ok ts
      else Raise (RuntimeError "stack expects each tensor to be equal size")
  end.

(** [torch.cat(ts, dim=1)]: every dimension but the second must agree.
    For an empty list torch raises an exception with the text below; its
    class differs between releases of torch ([RuntimeError] in some,
    [ValueError] in others) and the script pins none, so it is recorded as
    an exception of the package with its text. *)
Definition cat2_dim1 (a b : T4) : result T4 :=
  if bool_decide (length a = length b /\ skipn 2 (shape4 a) = skipn 2 (shape4 b))
  then Ok (zip_with (fun x y => (x ++ y)%list) a b)
  else Raise (RuntimeError "Sizes of tensors must match except in dimension 1").

Definition torch_cat_dim1 (ts : list T4) : result T4 :=
  match ts with
  | [] => Raise (External "torch.cat(): expected a non-empty list of Tensors")
  | t :: rest => fold_left (fun acc u => let? a := acc in cat2_dim1 a u) rest (Ok t)
  end.

Section Mean.
(** NumPy's mean of a run of floats; the order in which it adds them up is
    its own business. *)
Variable np_mean : list spec_float -> spec_float.

(** The mean over the first dimension of a stack of equally shaped
    matrices, position by position.  (An empty stack cannot occur:
    [torch.cat] has failed before on an empty list of batches.) *)
Definition mean_over (xs : T3) : T2 :=
  match xs with
  | [] => []
  | x :: _ =>
      imap (fun t row =>
        imap (fun e _ => np_mean (map (fun s => nth e (nth t s []) S754_nan) xs)) row) x
  end.

(** [a.mean(axis=1, keepdims=True)] *)
Definition mean_axis1 (a : T4) : T4 := map (fun layer => [mean_over layer]) a.
End Mean.

(** NumPy broadcasting along one dimension: equal lengths pair up, a
    length of one is repeated, anything else is an error. *)
Definition broadcast {A B C} (f : A -> B -> result C) (l : list A) (k : list B)
  : result (list C) :=
  if (length l =? length k)%nat then rzip_with f l k
  else match l, k with
       | [x], _ => rmapM (f x) k
       | _, [y] => rmapM (fun x => f x y) l
       | _, _ => Raise (ValueError "operands could not be broadcast together")
       end.

Section Arith.
Variables prec emax : Z.

(** [a - b] on arrays *)
Definition np_sub (a b : T4) : result T4 :=
  broadcast (broadcast (broadcast (broadcast
    (fun x y => Ok (SFsub prec emax x y))))) a b.
End Arith.

(** [- a] on arrays *)
Definition np_neg (a : T4) : T4 := map (map (map (map SFopp))) a.

End Tensor.

(** ** The collaborators *)

Import Pandas Tensor.

(** The tokenizer call takes the texts and the keyword arguments
    [padding], [truncation] and [max_length], and returns [input_ids] as a
    torch tensor. *)
Inductive padding := PadMaxLength | PadLongest | PadOff.

Definition Tokenizer : Type := list string -> padding -> bool -> nat -> answer IdTensor.

(** The network called with [output_hidden_states=True]: the tuple of
    hidden states, the embedding output first, then one entry per encoder
    layer, each of shape (batch, tokens, embedding). *)
Definition Model : Type := IdTensor -> answer (list T3).

(** A FASTA iterator read to its end: the [str(record.seq)] of its
    records, or the error met on the way. *)
Definition FastaIter : Type := answer (list string).

(** Objects that live in the module namespace of the script. *)
#[local] Unset Elimination Schemes.
Inductive pyobj :=
| PyNone
| PyStr (s : string)
| PyGlobal (qualname : string)
| PyParser (arguments : list (string * pyobj))
| PyNamespace (attrs : list (string * pyobj))
| PyTokenizer (t : Tokenizer)
| PyDevice (name : string)
| PyConfig (base_model_name_or_path : string)
| PyModel (m : Model)
| PyArray (a : T4).
#[local] Set Elimination Schemes.

Record World := {
  (* the float format of the activations *)
  act_prec : Z;
  act_emax : Z;
  np_mean : list spec_float -> spec_float;
  (* Bio.SeqIO.parse(path, "fasta") *)
  SeqIO_parse : string -> answer FastaIter;
  (* used by the program entry only *)
  parse_args : list (string * pyobj) -> list string -> answer (list (string * pyobj));
  get_tokenizer : answer Tokenizer;
  PeftConfig_from_pretrained : string -> answer string;
  load_model : string -> answer (Model * Tokenizer);
  PeftModel_from_pretrained : Model -> string -> answer Model;
  merge_and_unload : Model -> answer Model;
  (* model.to(device), a call on the network *)
  model_to : Model -> string -> answer unit;
  os_path_exists : string -> bool;
  os_makedirs : string -> answer unit;
  np_save : string -> T4 -> answer unit
}.

(** ** Encoding *)

(** Modelled from the spec: [mytok] is imported from a tokenizer module
    that is not among the sources.  The spec says of the call
    [mytok(seq, 3, 3)] that the sequence "is split into overlapping
    3-character tokens": here, the window of [kmer_len] characters at every
    position that has one, left to right.  The spec gives the third
    argument no role of its own. *)
Fixpoint mytok (seq : string) (kmer_len : nat) (s : nat) : list string :=
  match seq with
  | EmptyString => []
  | String _ seq' =>
      if (kmer_len <=? String.length seq)%nat
      then PyStr.slice 0 kmer_len seq :: mytok seq' kmer_len s
      else []
  end.

(** Lines 19-22.  The default of [max_length] is 1024. *)
Definition encode_sequences_default_max_length : nat := 1024.

Definition encode_sequences (sequences : list string) (tokenizer : Tokenizer)
    (max_length : nat) : M IdTensor :=
  let tokenized_sequences := map (fun seq => PyStr.join " " (mytok seq 3 3)) sequences in
  extern (EvTokenize tokenized_sequences)
         (tokenizer tokenized_sequences PadMaxLength true max_length).

(** ** [fetch_steering_vector] *)

Record FetchArgs := {
  data_type : string;
  model : Model;
  tokenizer : Tokenizer;
  device : string;
  sequences : option (gmap string string);
  percent : option spec_float;
  min_seq_len : Z;
  max_seq_len : Z;
  lambda_ : option spec_float;
  high_fa_path : option string;
  low_fa_path : option string
}.

(** A call that passes the four positional arguments and leaves every
    keyword argument at its default (line 24). *)
Definition positional (dt : string) (m : Model) (tok : Tokenizer) (dev : string) : FetchArgs :=
  {| data_type := dt; model := m; tokenizer := tok; device := dev;
     sequences := None; percent := None;
     min_seq_len := 300; max_seq_len := 3072 - 6;
     lambda_ := None; high_fa_path := None; low_fa_path := None |}.

(** [sequences[x]] for a cell [x] of the ID column *)
Definition dict_getitem (sequences : option (gmap string string)) (x : cell) : result string :=
  match sequences with
  | None => Raise (TypeError "'NoneType' object is not subscriptable")
  | Some d =>
      match x with
      | CStr id => match d !! id with
                   | Some s => Ok s
                   | None => Raise (KeyError id)
                   end
      | _ => Raise (KeyError "<number>")
      end
  end.

(** Line 42: [df['score'] = - df['MFE_normalized'] + lambda_ * df['log_CAI']] *)
Definition blend_scores (df : option DataFrame) (lam : spec_float) : result DataFrame :=
  let? d := load_local "df" df in
  let? mfe := getitem d "MFE_normalized" in
  let? negated := rmapM neg_cell mfe in
  let? log_cai := getitem d "log_CAI" in
  let? scaled := rmapM (scale_cell lam) log_cai in
  let? score := rzip_with add_cell negated scaled in
  setitem d "score" score.

(** Lines 57-58: the length of every sequence goes into a new column, and
    the rows whose length is within the bounds are kept. *)
Definition filter_by_length (df : option DataFrame) (sequences : option (gmap string string))
    (min_seq_len max_seq_len : Z) : result DataFrame :=
  let? d := load_local "df" df in
  let? ids := getitem d "ID" in
  let? lens := rmapM (fun x => let? s := dict_getitem sequences x in
                               Ok (CInt (Z.of_nat (String.length s)))) ids in
  let? d := setitem d "seq_length" lens in
  let? lo := getitem d "seq_length" in
  let? at_least := rmapM (ge_cell min_seq_len) lo in
  let? hi := getitem d "seq_length" in
  let? at_most := rmapM (le_cell max_seq_len) hi in
  Ok (select_rows d (zip_with andb at_least at_most)).

(** Lines 60-62: [n = int(len(df) * percent)], then the [n] largest and the
    [n] smallest rows by the score column. *)
Definition rank_rows (df : DataFrame) (percent : spec_float) (value_col : option string)
  : result (Z * DataFrame * DataFrame) :=
  let? n := Float64.to_int (Float64.mul (Float64.of_Z (len df)) percent) in
  let? col := load_local "value_col" value_col in
  let? top_seqs := nlargest n col df in
  let? bottom_seqs := nsmallest n col df in
  Ok (n, top_seqs, bottom_seqs).

(** Lines 57-62. *)
Definition percent_rows (df : option DataFrame) (sequences : option (gmap string string))
    (percent : spec_float) (min_seq_len max_seq_len : Z) (value_col : option string)
  : result (Z * DataFrame * DataFrame) :=
  let? d := filter_by_length df sequences min_seq_len max_seq_len in
  rank_rows d percent value_col.

(** Lines 64-68: from the selected rows to their sequences. *)
Definition rows_to_sequences (sequences : option (gmap string string))
    (top_seqs bottom_seqs : DataFrame) : result (list string * list string) :=
  let? top_ids := getitem top_seqs "ID" in
  let? top := rmapM (dict_getitem sequences) top_ids in
  let? low_ids := getitem bottom_seqs "ID" in
  let? low := rmapM (dict_getitem sequences) low_ids in
  Ok (top, low).

(** [range(0, n, step)] *)
Definition py_range (n step : nat) : list nat :=
  map (fun k => (k * step)%nat) (seq 0 ((n + step - 1) / step)).

(** Lines 85-95 for the high group and, word for word with [low] in place
    of [top], lines 97-107 for the low group: the forward passes in batches
    of 32, the stacking without the first hidden state, the concatenation
    over batches and the mean over the sequences. *)
Definition group_mean (W : World) (model : Model) (seqs : IdTensor) : M T4 :=
  let batch_size := 32%nat in
  let* n := lift (size seqs 0) in
  let* steering_vectors :=
    mapM (fun i =>
            let* batch := lift (slice_rows seqs i batch_size) in
            let* hidden_states := extern (EvForward (length (rows batch))) (model batch) in
            let encoder_layer_outputs := tail hidden_states in
            lift (torch_stack encoder_layer_outputs))
         (py_range n batch_size) in
  let* steering_vectors := lift (torch_cat_dim1 steering_vectors) in
  ret (mean_axis1 (np_mean W) steering_vectors).

(** Lines 33-70 of [fetch_steering_vector]: the checks on the arguments
    and the choice of the two groups of sequences.  The name [df] is local
    to the function, because line 58 assigns it, and no caller can fill
    it: when the function is entered the slot is empty.  [df_entry] is
    the content of the slot when these lines start, which for the function
    is always [None] (see [fetch_steering_vector] below); it is a
    parameter only so that a statement about these lines can be made
    whatever the slot holds. *)
Definition select_sequences (W : World) (df_entry : option DataFrame) (a : FetchArgs)
  : M (list string * list string) :=
  let dt := PyStr.lower (data_type a) in
  (* lines 33-48 *)
  let* (value_col, df, fa) :=
    if String.eqb dt "mfe" then ret (Some "MFE_normalized", df_entry, None)
    else if String.eqb dt "cai" then ret (Some "CAI", df_entry, None)
    else if String.eqb dt "mfe_cai" then
      match lambda_ a with
      | None => raise (ValueError "Must provide 'lambda_' for 'mfe_cai' data type.")
      | Some lam =>
          let* d := lift (blend_scores df_entry lam) in
          ret (Some "score", Some d, None)
      end
    else if String.eqb dt "fasta" then
      match high_fa_path a, low_fa_path a with
      | Some high, Some low =>
          let* high_fa := extern (EvParse high) (SeqIO_parse W high) in
          let* low_fa := extern (EvParse low) (SeqIO_parse W low) in
          ret (None, df_entry, Some (high_fa, low_fa))
      | _, _ => raise (AssertionError 44)
      end
    else raise (ValueError "data_type must be 'mfe' or 'cai' or 'mfe_cai' or 'fasta'.") in
  (* lines 52-70 *)
  if String.eqb dt "fasta" then
    let* (high_fa, low_fa) := lift (load_local "high_fa" fa) in
    let* top_seqs := extern EvRecords high_fa in
    let* low_seqs := extern EvRecords low_fa in
    ret (top_seqs, low_seqs)
  else
    match percent a with
    | Some p =>
        let* (_, top_rows, bottom_rows) :=
          lift (percent_rows df (sequences a) p (min_seq_len a) (max_seq_len a) value_col) in
        lift (rows_to_sequences (sequences a) top_rows bottom_rows)
    | None =>
        raise (ValueError "Must provide either 'percent' or 'cai_threshold' (only for 'cai').")
    end.

(** Lines 72-114 of [fetch_steering_vector]: from the two groups of
    sequences to the steering vector.  ([.to(device)], [.cpu()] and
    [.numpy()] move data and change neither shapes nor values;
    [torch.no_grad()] only switches gradient tracking off.) *)
Definition contrast_groups (W : World) (a : FetchArgs) (top_seqs low_seqs : list string)
  : M T4 :=
  let dt := PyStr.lower (data_type a) in
  (* line 73 *)
  emit EvEval ;;
  (* lines 76-79 *)
  let max_length := 1024%nat in
  let* top_seqs := encode_sequences top_seqs (tokenizer a) max_length in
  let* low_seqs := encode_sequences low_seqs (tokenizer a) max_length in
  let* top_len := lift (size top_seqs 1) in
  let* low_len := lift (size low_seqs 1) in
  if negb (top_len =? low_len)%nat then raise (AssertionError 79) else
  (* lines 82-109 *)
  emit (EvPrint "Computing steering vectors...") ;;
  let* top_steering_vectors := group_mean W (model a) top_seqs in
  let* low_steering_vectors := group_mean W (model a) low_seqs in
  let* steering_vectors :=
    lift (np_sub (act_prec W) (act_emax W) top_steering_vectors low_steering_vectors) in
  (* lines 111-114 *)
  ret (if String.eqb dt "mfe" then np_neg steering_vectors else steering_vectors).

(** The body of [fetch_steering_vector] (lines 33-114), started with
    [df_entry] in the slot of [df].  Only the start with [None] is a call
    of the function. *)
Definition fetch_steering_vector_from (W : World) (df_entry : option DataFrame)
    (a : FetchArgs) : M T4 :=
  let* (top_seqs, low_seqs) := select_sequences W df_entry a in
  contrast_groups W a top_seqs low_seqs.

(** The function itself: on entry no statement has run yet, so the slot
    of [df] is empty. *)
Definition fetch_steering_vector (W : World) (a : FetchArgs) : M T4 :=
  fetch_steering_vector_from W None a.

(** ** The program entry (lines 125-157) *)

(** The module namespace when line 125 is reached: what the imports of
    lines 4-17 and the three [def]s have bound.  [__name__] is
    ["__main__"] because the file is run as a program. *)
Definition module_namespace : gmap string pyobj :=
  list_to_map
    [("__name__", PyStr "__main__");
     ("__doc__", PyStr "This script fetches the steering vectors for sequences.");
     ("argparse", PyGlobal "argparse");
     ("SeqIO", PyGlobal "Bio.SeqIO");
     ("sys", PyGlobal "sys");
     ("torch", PyGlobal "torch");
     ("BertForPreTraining", PyGlobal "transformers.BertForPreTraining");
     ("pd", PyGlobal "pandas");
     ("np", PyGlobal "numpy");
     ("tqdm", PyGlobal "tqdm.tqdm");
     ("PeftConfig", PyGlobal "peft.PeftConfig");
     ("PeftModel", PyGlobal "peft.PeftModel");
     ("load_model", PyGlobal "finetune_token_cls.load_model");
     ("os", PyGlobal "os");
     ("mytok", PyGlobal "tokenizer.mytok");
     ("get_tokenizer", PyGlobal "tokenizer.get_tokenizer");
     ("encode_sequences", PyGlobal "encode_sequences");
     ("fetch_steering_vector", PyGlobal "fetch_steering_vector");
     ("load_data", PyGlobal "load_data")].

(** The built-in functions and constants of Python. *)
Definition builtins : list string :=
  ["abs"; "aiter"; "all"; "anext"; "any"; "ascii"; "bin"; "bool"; "breakpoint";
   "bytearray"; "bytes"; "callable"; "chr"; "classmethod"; "compile"; "complex";
   "delattr"; "dict"; "dir"; "divmod"; "enumerate"; "eval"; "exec"; "filter";
   "float"; "format"; "frozenset"; "getattr"; "globals"; "hasattr"; "hash";
   "help"; "hex"; "id"; "input"; "int"; "isinstance"; "issubclass"; "iter";
   "len"; "list"; "locals"; "map"; "max"; "memoryview"; "min"; "next";
   "object"; "oct"; "open"; "ord"; "pow"; "print"; "property"; "range";
   "repr"; "reversed"; "round"; "set"; "setattr"; "slice"; "sorted";
   "staticmethod"; "str"; "sum"; "super"; "tuple"; "type"; "vars"; "zip";
   "True"; "False"; "None"; "NotImplemented"; "Ellipsis"; "__debug__";
   "Exception"; "ValueError"; "AssertionError"; "NameError"; "KeyError";
   "TypeError"; "IndexError"; "RuntimeError"].

(** Reading a name at module level: the module namespace first, then the
    built-ins, else [NameError]. *)
Definition load_name (g : gmap string pyobj) (x : string) : result pyobj :=
  match g !! x with
  | Some v => Ok v
  | None => if existsb (String.eqb x) builtins then Ok (PyGlobal x)
            else Raise (NameError x)
  end.

Definition as_str (v : pyobj) : result string :=
  match v with
  | PyStr s => Ok s
  | _ => Raise (TypeError "expected str")
  end.

(** [obj.name] on an argparse namespace *)
Definition getattr (v : pyobj) (name : string) : result pyobj :=
  match v with
  | PyNamespace attrs =>
      match find (fun p => String.eqb (fst p) name) attrs with
      | Some p => Ok (snd p)
      | None => Raise (AttributeError name)
      end
  | _ => Raise (AttributeError name)
  end.

(** [parser.add_argument('--dest', type=str, default=d, help=...)]: the
    callee, then the keyword values from left to right, then the call. *)
Definition add_argument (g : gmap string pyobj) (dest : string)
    (default : gmap string pyobj -> result pyobj) : result (gmap string pyobj) :=
  let? parser := load_name g "parser" in
  let? _ := load_name g "str" in
  let? d := default g in
  match parser with
  | PyParser arguments => Ok (<["parser" := PyParser (arguments ++ [(dest, d)])%list]> g)
  | _ => Raise (AttributeError "add_argument")
  end.

(** [os.path.join(dir, name)] *)
Definition path_join (dir name : string) : string :=
  if String.prefix "/" name then name
  else if String.eqb dir "" then name
  else if String.eqb (PyStr.slice (String.length dir - 1) 1 dir) "/"
       then (dir ++ name)%string
       else (dir ++ "/" ++ name)%string.

(** ["a" + v + "b"] *)
Definition concat3 (a : string) (v : pyobj) (b : string) : result string :=
  match v with
  | PyStr s => Ok (a ++ s ++ b)%string
  | _ => Raise (TypeError "can only concatenate str to str")
  end.

(** Lines 126-157, run in the module namespace [g]. *)
Definition main (g : gmap string pyobj) (W : World) (argv : list string) : M unit :=
  (* line 126 *)
  let* _ := lift (load_name g "argparse") in
  let g := <["parser" := PyParser []]> g in
  (* lines 127-132 *)
  let* g := lift (add_argument g "model_path" (fun g => load_name g "model_path")) in
  let* g := lift (add_argument g "high_fa_path" (fun _ => Ok PyNone)) in
  let* g := lift (add_argument g "low_fa_path" (fun _ => Ok PyNone)) in
  let* g := lift (add_argument g "data_type" (fun _ => Ok (PyStr "fasta"))) in
  let* g := lift (add_argument g "save_name" (fun _ => Ok PyNone)) in
  let* g := lift (add_argument g "save_dir" (fun _ => Ok (PyStr "../data"))) in
  (* line 133 *)
  let* parser := lift (load_name g "parser") in
  let* attrs := match parser with
                | PyParser arguments => extern EvParseArgs (parse_args W arguments argv)
                | _ => raise (AttributeError "parse_args")
                end in
  let g := <["args" := PyNamespace attrs]> g in
  (* lines 135-140 *)
  let* args := lift (load_name g "args") in
  let* v := lift (getattr args "model_path") in
  let g := <["model_path" := v]> g in
  let* v := lift (getattr args "high_fa_path") in
  let g := <["high_fa_path" := v]> g in
  let* v := lift (getattr args "low_fa_path") in
  let g := <["low_fa_path" := v]> g in
  let* v := lift (getattr args "data_type") in
  let* v := lift (match v with
                  | PyStr s => Ok (PyStr (PyStr.lower s))
                  | _ => Raise (AttributeError "lower")
                  end) in
  let g := <["data_type" := v]> g in
  let* v := lift (getattr args "save_name") in
  let g := <["save_name" := v]> g in
  let* v := lift (getattr args "save_dir") in
  let g := <["save_dir" := v]> g in
  (* lines 142-148 *)
  let* _ := lift (load_name g "get_tokenizer") in
  let* tok := extern (EvLoad "get_tokenizer") (get_tokenizer W) in
  let g := <["tokenizer" := PyTokenizer tok]> g in
  let* _ := lift (load_name g "torch") in
  let g := <["device" := PyDevice "cuda:0"]> g in
  let* _ := lift (load_name g "PeftConfig") in
  let* model_path := lift (let? v := load_name g "model_path" in as_str v) in
  let* base := extern (EvLoad "PeftConfig.from_pretrained")
                      (PeftConfig_from_pretrained W model_path) in
  let g := <["config" := PyConfig base]> g in
  let* _ := lift (load_name g "load_model") in
  let* (m, bert_tokenizer_fast) := extern (EvLoad "load_model") (load_model W base) in
  let g := <["_" := PyNone]> (<["bert_tokenizer_fast" := PyTokenizer bert_tokenizer_fast]>
                               (<["model" := PyModel m]> g)) in
  let* _ := lift (load_name g "PeftModel") in
  let* m := extern (EvLoad "PeftModel.from_pretrained")
                   (PeftModel_from_pretrained W m model_path) in
  let g := <["model" := PyModel m]> g in
  let* m := extern (EvLoad "merge_and_unload") (merge_and_unload W m) in
  let g := <["model" := PyModel m]> g in
  (* line 148: the network is moved to the device *)
  let* _ := lift (load_name g "model") in
  let* _ := lift (load_name g "device") in
  extern (EvTo "cuda:0") (model_to W m "cuda:0") ;;
  (* line 150 *)
  let* _ := lift (load_name g "fetch_steering_vector") in
  let* data_type := lift (let? v := load_name g "data_type" in as_str v) in
  let* high := lift (load_name g "high_fa_path") in
  let* low := lift (load_name g "low_fa_path") in
  let as_path v := match v with PyStr s => Some s | _ => None end in
  let* steering_vectors :=
    fetch_steering_vector W
      {| data_type := data_type; model := m; tokenizer := bert_tokenizer_fast;
         device := "cuda:0"; sequences := None; percent := None;
         min_seq_len := 300; max_seq_len := 3072 - 6; lambda_ := None;
         high_fa_path := as_path high; low_fa_path := as_path low |} in
  let g := <["steering_vectors" := PyArray steering_vectors]> g in
  (* line 152 *)
  emit (EvPrintShape (shape4 steering_vectors)) ;;
  (* lines 154-156 *)
  let* save_dir := lift (let? v := load_name g "save_dir" in as_str v) in
  (if os_path_exists W save_dir then ret tt
   else extern (EvMakedirs save_dir) (os_makedirs W save_dir)) ;;
  let* save_name := lift (load_name g "save_name") in
  let* file := lift (concat3 "steering_vectors_" save_name ".npy") in
  let path := path_join save_dir file in
  extern (EvSave path) (np_save W path steering_vectors) ;;
  (* line 157 *)
  let* save_dir := lift (let? v := load_name g "save_dir" in as_str v) in
  let* save_name := lift (load_name g "save_name") in
  let* file := lift (concat3 "steering_vectors_" save_name ".npy") in
  emit (EvPrint ("Saved steering vectors to " ++ path_join save_dir file)%string).

(** Running the file as a program, once the imports have gone through:
    the [if __name__ == "__main__"] guard of line 125, then the block
    under it. *)
Definition script (W : World) (argv : list string) : M unit :=
  match module_namespace !! "__name__" with
  | Some (PyStr "__main__") => main module_namespace W argv
  | _ => ret tt
  end.

(** ** [load_data] (lines 116-123) *)

(** What the loop reads of a FASTA record: [record.id] and
    [str(record.seq)]. *)
Record SeqRecord := {
  rec_id : string;
  rec_seq : string
}.

(** A FASTA iterator over an open file, as a [for] loop sees it: the
    records it yields, in order, and how the iteration ends, at the end of
    the file ([None]) or with an error. *)
Record RecordIter := {
  yielded : list SeqRecord;
  failure : option string
}.

(** The files as [load_data] meets them. *)
Record Files := {
  Handle : Type;
  (* open(path) *)
  open : string -> answer Handle;
  (* Bio.SeqIO.parse(handle, "fasta") *)
  SeqIO_parse_handle : Handle -> answer RecordIter
}.

(** Line 121: [sequences[record.id] = str(record.seq)] *)
Definition dict_setitem (sequences : gmap string string) (record : SeqRecord)
  : gmap string string :=
  <[rec_id record := rec_seq record]> sequences.

(** Lines 116-123.  The [with] block closes the file on the way out and
    lets an exception pass; the dictionary is returned only when the loop
    has come to its end. *)
Definition load_data (F : Files) (data_path : string) : result (gmap string string) :=
  let sequences : gmap string string := empty in
  let? fasta_file := of_answer (open F data_path) in
  let? records := of_answer (SeqIO_parse_handle F fasta_file) in
  let sequences := fold_left dict_setitem (yielded records) sequences in
  match failure records with
  | Some what => Raise (External what)
  | None => Ok sequences
  end.

(** ** A small concrete world

    A two-layer network with embeddings of size two in binary32, a
    tokenizer that pads and truncates as asked, and three FASTA files.
    The statements below are run on it. *)

Module Demo.

Definition f32 (z : Z) : spec_float := binary_normalize 24 128 z 0 false.

(** Token ids: the character codes, cut at [max_length], then padded with
    zeros up to [max_length] when the padding mode asks for it. *)
Definition encode_text (pad : padding) (truncation : bool) (max_length : nat)
    (text : string) : list Z :=
  let ids := map (fun c => Z.of_N (N_of_ascii c)) (list_ascii_of_string text) in
  let ids := if truncation then firstn max_length ids else ids in
  match pad with
  | PadMaxLength => (ids ++ repeat 0 (max_length - length ids))%list
  | _ => ids
  end.

Definition toy_tokenizer : Tokenizer := fun texts pad truncation max_length =>
  match texts with
  | [] => Throws "IndexError: list index out of range"
  | _ => let rows := map (encode_text pad truncation max_length) texts in
         Returns {| dims := [length rows; length (hd [] rows)]; rows := rows |}
  end.

(** A tokenizer that ignores the padding request. *)
Definition ragged_tokenizer : Tokenizer := fun texts _ _ _ =>
  match texts with
  | [] => Throws "IndexError: list index out of range"
  | _ => let rows := map (encode_text PadOff false 0) texts in
         Returns {| dims := [length rows; length (hd [] rows)]; rows := rows |}
  end.

Definition depth : nat := 2.
Definition embedding_size : nat := 2.

(** Hidden state number [l] puts [id + l] and [id - l] at every token. *)
Definition hidden_state (ids : IdTensor) (l : nat) : T3 :=
  map (map (fun id => [f32 (id + Z.of_nat l); f32 (id - Z.of_nat l)])) (rows ids).

Definition toy_model : Model := fun ids =>
  Returns (map (hidden_state ids) (seq 0 (S depth))).

Definition mean (xs : list spec_float) : spec_float :=
  SFdiv 24 128 (fold_left (SFadd 24 128) xs (S754_zero false))
               (f32 (Z.of_nat (length xs))).

Definition parse (path : string) : answer FastaIter :=
  if String.eqb path "high.fa" then Returns (Returns ["ATGGCCGCC"; "ATGAAA"])
  else if String.eqb path "low.fa" then Returns (Returns ["ATGTTT"])
  else if String.eqb path "empty.fa" then Returns (Returns [])
  else Throws "FileNotFoundError: No such file or directory".

Definition world : World :=
  {| act_prec := 24; act_emax := 128;
     np_mean := mean;
     SeqIO_parse := parse;
     parse_args := fun arguments _ => Returns arguments;
     get_tokenizer := Returns toy_tokenizer;
     PeftConfig_from_pretrained := fun path => Returns (path ++ "/base")%string;
     load_model := fun _ => Returns (toy_model, toy_tokenizer);
     PeftModel_from_pretrained := fun m _ => Returns m;
     merge_and_unload := fun m => Returns m;
     model_to := fun _ _ => Returns tt;
     os_path_exists := fun _ => true;
     os_makedirs := fun _ => Returns tt;
     np_save := fun _ _ => Returns tt |}.

(** A call in FASTA mode on the two non-empty files. *)
Definition fasta_call (dt : string) : FetchArgs :=
  {| data_type := dt; model := toy_model; tokenizer := toy_tokenizer; device := "cuda:0";
     sequences := None; percent := None;
     min_seq_len := 300; max_seq_len := 3072 - 6; lambda_ := None;
     high_fa_path := Some "high.fa"; low_fa_path := Some "low.fa" |}.

(** The same call with the tokenizer that does not pad. *)
Definition ragged_call : FetchArgs :=
  {| data_type := "fasta"; model := toy_model; tokenizer := ragged_tokenizer;
     device := "cuda:0"; sequences := None; percent := None;
     min_seq_len := 300; max_seq_len := 3072 - 6; lambda_ := None;
     high_fa_path := Some "high.fa"; low_fa_path := Some "low.fa" |}.

(** A score table of 102 rows, ["seq000"] to ["seq101"]; the sequences of
    the last two are empty, so a lower length bound of one leaves 100
    rows. *)
Definition digit (n : nat) : ascii := ascii_of_nat (48 + n mod 10).

Definition seq_id (i : nat) : string :=
  ("seq" ++ String (digit (i / 100)) (String (digit (i / 10)) (String (digit i) "")))%string.

Definition table_row (i : nat) : list cell :=
  [CStr (seq_id i);
   CFloat (Float64.of_Z (- Z.of_nat (i mod 7)));
   CFloat (Float64.div (Float64.of_Z (Z.of_nat i)) (Float64.of_Z 120));
   CFloat (Float64.of_Z (- Z.of_nat (i mod 3)))].

Definition table : DataFrame :=
  {| df_columns := ["ID"; "MFE_normalized"; "CAI"; "log_CAI"];
     df_rows := map table_row (seq 0 102) |}.

Definition table_sequences : gmap string string :=
  list_to_map (map (fun i => (seq_id i, if (i <? 50)%nat then "ATGGCC"
                                         else if (i <? 100)%nat then "ATGAAATAG"
                                         else "")) (seq 0 102)).

(** A call in a score-table mode. *)
Definition table_call (dt : string) : FetchArgs :=
  {| data_type := dt; model := toy_model; tokenizer := toy_tokenizer; device := "cuda:0";
     sequences := Some table_sequences; percent := Some Float64.lit_0_1;
     min_seq_len := 1; max_seq_len := 3072 - 6; lambda_ := Some (Float64.of_Z 2);
     high_fa_path := None; low_fa_path := None |}.

(** A call in 'mfe' mode that asks for two rows on either side. *)
Definition mfe_call : FetchArgs :=
  {| data_type := "mfe"; model := toy_model; tokenizer := toy_tokenizer; device := "cuda:0";
     sequences := Some table_sequences;
     percent := Some (Float64.div (Float64.of_Z 1) (Float64.of_Z 50));
     min_seq_len := 1; max_seq_len := 3072 - 6; lambda_ := None;
     high_fa_path := None; low_fa_path := None |}.

End Demo.

(** ** More concrete inputs *)

Module DemoFiles.

Definition record_of (id seq : string) : SeqRecord := {| rec_id := id; rec_seq := seq |}.

(** Three files that open: one with a repeated identifier, one with
    distinct identifiers, and one that breaks off after its first record;
    and one that does not exist. *)
Definition files : Files :=
  {| Handle := string;
     open := fun path =>
       if String.eqb path "missing.fa"
       then Throws "FileNotFoundError: No such file or directory"
       else Returns path;
     SeqIO_parse_handle := fun handle =>
       if String.eqb handle "repeated.fa"
       then Returns {| yielded := [record_of "s1" "ATGGCC"; record_of "s2" "ATGAAA"; record_of "s1" "ATGTTT"];
                       failure := None |}
       else if String.eqb handle "distinct.fa"
       then Returns {| yielded := [record_of "s1" "ATGGCC"; record_of "s2" "ATGAAA"]; failure := None |}
       else Returns {| yielded := [record_of "s1" "ATGGCC"];
                       failure := Some "UnicodeDecodeError: invalid start byte" |} |}.

End DemoFiles.

Module DemoCalls.

(** What the demo network computes for one sequence, and a group of 33
    sequences of two tokens, which takes two batches. *)
Definition per_row (row : list Z) : list T2 :=
  map (fun l => map (fun id => [Demo.f32 (id + Z.of_nat l); Demo.f32 (id - Z.of_nat l)]) row)
      (seq 0 (S Demo.depth)).

Definition long_batch : IdTensor :=
  {| dims := [33%nat; 2%nat];
     rows := map (fun i => [Z.of_nat i; 7]) (seq 0 33) |}.

(** A FASTA call whose low file has no records. *)
Definition empty_low_call : FetchArgs :=
  {| data_type := "fasta"; model := Demo.toy_model; tokenizer := Demo.toy_tokenizer;
     device := "cuda:0"; sequences := None; percent := None;
     min_seq_len := 300; max_seq_len := 3072 - 6; lambda_ := None;
     high_fa_path := Some "high.fa"; low_fa_path := Some "empty.fa" |}.


(** A FASTA call that spells the mode in capitals and passes every
    keyword argument of the score-table modes as well. *)
Definition crowded_call : FetchArgs :=
  {| data_type := "FASTA"; model := Demo.toy_model; tokenizer := Demo.toy_tokenizer;
     device := "cuda:0"; sequences := Some Demo.table_sequences;
     percent := Some Float64.lit_0_1; min_seq_len := 1; max_seq_len := 2;
     lambda_ := Some Float64.lit_0_1;
     high_fa_path := Some "high.fa"; low_fa_path := Some "low.fa" |}.

End DemoCalls.

Module DemoCli.

(** A command line of [--flag value] pairs: every value replaces the
    default of its argument. *)
Fixpoint replace_default (dest : string) (v : pyobj) (arguments : list (string * pyobj))
  : option (list (string * pyobj)) :=
  match arguments with
  | [] => None
  | (d, old) :: rest =>
      if String.eqb d dest then Some ((d, v) :: rest)
      else option_map (cons (d, old)) (replace_default dest v rest)
  end.

Fixpoint parse_pairs (arguments : list (string * pyobj)) (argv : list string)
  : answer (list (string * pyobj)) :=
  match argv with
  | [] => Returns arguments
  | [_] => Throws "SystemExit: expected one argument"
  | flag :: value :: rest =>
      if String.prefix "--" flag
      then match replace_default (PyStr.slice 2 (String.length flag - 2) flag)
                                 (PyStr value) arguments with
           | Some arguments' => parse_pairs arguments' rest
           | None => Throws "SystemExit: unrecognized arguments"
           end
      else Throws "SystemExit: unrecognized arguments"
  end.

(** The demo world with this parser, a save directory that does not
    exist yet, and a [get_tokenizer] that hands out the tokenizer that
    does not pad. *)
Definition cli_world : World :=
  {| act_prec := 24; act_emax := 128;
     np_mean := Demo.mean;
     SeqIO_parse := Demo.parse;
     parse_args := parse_pairs;
     get_tokenizer := Returns Demo.ragged_tokenizer;
     PeftConfig_from_pretrained := fun path => Returns (path ++ "/base")%string;
     load_model := fun _ => Returns (Demo.toy_model, Demo.toy_tokenizer);
     PeftModel_from_pretrained := fun m _ => Returns m;
     merge_and_unload := fun m => Returns m;
     model_to := fun _ _ => Returns tt;
     os_path_exists := fun _ => false;
     os_makedirs := fun _ => Returns tt;
     np_save := fun _ _ => Returns tt |}.

(** The module namespace with [model_path] bound beforehand. *)
Definition namespace : gmap string pyobj :=
  <["model_path" := PyStr "checkpoint"]> module_namespace.

Definition argv : list string :=
  ["--high_fa_path"; "high.fa"; "--low_fa_path"; "low.fa"; "--data_type"; "FASTA";
   "--save_name"; "demo"].

End DemoCli.

(** * Properties *)

(** ** Reasoning about computations *)

Lemma bind_ok {A B} (m : M A) (k : A -> M B) (v : B) (tr : trace) :
  bind m k = (Ok v, tr) ->
  exists x tr1 tr2, m = (Ok x, tr1) /\ k x = (Ok v, tr2) /\ tr = (tr1 ++ tr2)%list.
Proof.
  unfold bind. destruct m as [[x|e] tr1]; [|discriminate].
  destruct (k x) as [r tr2] eqn:Hk. intros [= -> <-].
  now exists x, tr1, tr2.
Qed.

Lemma bind_raise {A B} (m : M A) (k : A -> M B) (e : exn) (tr : trace) :
  bind m k = (Raise e, tr) ->
  m = (Raise e, tr)
  \/ exists x tr1 tr2, m = (Ok x, tr1) /\ k x = (Raise e, tr2) /\ tr = (tr1 ++ tr2)%list.
Proof.
  unfold bind. destruct m as [[x|e'] tr1].
  - destruct (k x) as [r tr2] eqn:Hk. intros [= -> <-].
    right. now exists x, tr1, tr2.
  - intros [= -> ->]. now left.
Qed.

Lemma bind_step {A B} (m : M A) (k : A -> M B) (x : A) (tr1 : trace) :
  m = (Ok x, tr1) -> bind m k = (fst (k x), (tr1 ++ snd (k x))%list).
Proof.
  intros ->. unfold bind. now destruct (k x).
Qed.

Lemma bind_lift_ok {A B} (x : A) (k : A -> M B) : bind (lift (Ok x)) k = k x.
Proof. unfold bind, lift. now destruct (k x). Qed.

(** An exception that a computation can end in satisfies [P]. *)
Definition rsafe {A} (P : exn -> Prop) (r : result A) : Prop :=
  forall e, r = Raise e -> P e.

Definition msafe {A} (P : exn -> Prop) (m : M A) : Prop :=
  forall e tr, m = (Raise e, tr) -> P e.

(** The errors of the modelled packages are never assertion failures. *)
Definition not_assertion (e : exn) : Prop :=
  match e with
  | AssertionError _ => False
  | _ => True
  end.

Lemma rsafe_ok {A} P (x : A) : rsafe P (Ok x).
Proof. intros e H. discriminate H. Qed.

Lemma rsafe_raise {A} (P : exn -> Prop) e : P e -> rsafe P (@Raise A e).
Proof. intros H e' [= <-]. exact H. Qed.

Lemma rsafe_rbind {A B} P (r : result A) (k : A -> result B) :
  rsafe P r -> (forall x, r = Ok x -> rsafe P (k x)) -> rsafe P (rbind r k).
Proof.
  intros Hr Hk e. destruct r as [x|e']; simpl.
  - now apply Hk.
  - intros [= <-]. now apply Hr.
Qed.

Lemma rsafe_rmapM {A B} P (f : A -> result B) (l : list A) :
  (forall x, rsafe P (f x)) -> rsafe P (rmapM f l).
Proof.
  intros Hf. induction l as [|x l IH]; simpl.
  - apply rsafe_ok.
  - apply rsafe_rbind; [apply Hf|]. intros y _.
    apply rsafe_rbind; [apply IH|]. intros ys _. apply rsafe_ok.
Qed.

Lemma rsafe_rzip_with {A B C} P (f : A -> B -> result C) (l : list A) (k : list B) :
  (forall x y, rsafe P (f x y)) -> rsafe P (rzip_with f l k).
Proof.
  intros Hf. revert k. induction l as [|x l IH]; intros [|y k]; simpl;
    try apply rsafe_ok.
  apply rsafe_rbind; [apply Hf|]. intros z _.
  apply rsafe_rbind; [apply IH|]. intros zs _. apply rsafe_ok.
Qed.

Lemma rsafe_of_answer {A} (x : answer A) : rsafe not_assertion (of_answer x).
Proof. destruct x; intros e [= <-]. exact I. Qed.

Lemma rsafe_load_local {A} name (slot : option A) : rsafe not_assertion (load_local name slot).
Proof. destruct slot; intros e [= <-]. exact I. Qed.

Lemma msafe_ret {A} P (x : A) : msafe P (ret x).
Proof. intros e tr H. discriminate H. Qed.

Lemma msafe_raise {A} (P : exn -> Prop) e : P e -> msafe P (@raise A e).
Proof. intros H e' tr [= <- _]. exact H. Qed.

Lemma msafe_emit P ev : msafe P (emit ev).
Proof. intros e tr H. discriminate H. Qed.

Lemma msafe_lift {A} P (r : result A) : rsafe P r -> msafe P (lift r).
Proof. intros H e tr [= -> _]. now apply H. Qed.

Lemma msafe_extern {A} ev (x : answer A) : msafe not_assertion (extern ev x).
Proof. intros e tr [= H _]. now apply (rsafe_of_answer x). Qed.

Lemma msafe_bind {A B} P (m : M A) (k : A -> M B) :
  msafe P m -> (forall x tr, m = (Ok x, tr) -> msafe P (k x)) -> msafe P (bind m k).
Proof.
  intros Hm Hk e tr H. apply bind_raise in H as [H | (x & tr1 & tr2 & H1 & H2 & _)].
  - now apply (Hm e tr).
  - now apply (Hk x tr1 H1 e tr2).
Qed.

Lemma msafe_mapM {A B} P (f : A -> M B) (l : list A) :
  (forall x, msafe P (f x)) -> msafe P (mapM f l).
Proof.
  intros Hf. induction l as [|x l IH]; simpl.
  - apply msafe_ret.
  - apply msafe_bind; [apply Hf|]. intros y _ _.
    apply msafe_bind; [apply IH|]. intros ys _ _. apply msafe_ret.
Qed.

Lemma rsafe_weaken {A} (P Q : exn -> Prop) (r : result A) :
  (forall e, P e -> Q e) -> rsafe P r -> rsafe Q r.
Proof. intros HPQ Hr e He. apply HPQ, Hr, He. Qed.

Lemma msafe_weaken {A} (P Q : exn -> Prop) (m : M A) :
  (forall e, P e -> Q e) -> msafe P m -> msafe Q m.
Proof. intros HPQ Hm e tr He. eapply HPQ, Hm, He. Qed.

(** ** Argument validation *)

(** The four spellings the error message of line 48 lists. *)
Definition accepted_data_types : list string := ["mfe"; "cai"; "mfe_cai"; "fasta"].

(** The call ends in an exception and nothing has happened before it: no
    file opened, no tokenizer or network call, nothing printed. *)
Definition raises_at_once (W : World) (a : FetchArgs) : Prop :=
  exists e, fetch_steering_vector W a = (Raise e, []).

Section Validation.
Variable W : World.
Variable a : FetchArgs.

Let dt := PyStr.lower (data_type a).

Lemma unknown_data_type_raises :
  ~ In dt accepted_data_types ->
  fetch_steering_vector W a =
    (Raise (ValueError "data_type must be 'mfe' or 'cai' or 'mfe_cai' or 'fasta'."), []).
Proof.
  intros Hnot. unfold fetch_steering_vector, fetch_steering_vector_from, select_sequences.
  fold dt.
  assert (H1 : String.eqb dt "mfe" = false)
    by (apply String.eqb_neq; intros E; apply Hnot; rewrite E; simpl; tauto).
  assert (H2 : String.eqb dt "cai" = false)
    by (apply String.eqb_neq; intros E; apply Hnot; rewrite E; simpl; tauto).
  assert (H3 : String.eqb dt "mfe_cai" = false)
    by (apply String.eqb_neq; intros E; apply Hnot; rewrite E; simpl; tauto).
  assert (H4 : String.eqb dt "fasta" = false)
    by (apply String.eqb_neq; intros E; apply Hnot; rewrite E; simpl; tauto).
  rewrite H1, H2, H3, H4. reflexivity.
Qed.

Lemma missing_lambda_raises :
  dt = "mfe_cai" -> lambda_ a = None ->
  fetch_steering_vector W a =
    (Raise (ValueError "Must provide 'lambda_' for 'mfe_cai' data type."), []).
Proof.
  intros Hdt Hlam. unfold fetch_steering_vector, fetch_steering_vector_from, select_sequences.
  fold dt. rewrite Hdt, Hlam. reflexivity.
Qed.

Lemma missing_path_raises :
  dt = "fasta" -> high_fa_path a = None \/ low_fa_path a = None ->
  fetch_steering_vector W a = (Raise (AssertionError 44), []).
Proof.
  intros Hdt Hpath. unfold fetch_steering_vector, fetch_steering_vector_from, select_sequences.
  fold dt. rewrite Hdt. cbn.
  destruct (high_fa_path a), (low_fa_path a); try reflexivity.
  destruct Hpath; discriminate.
Qed.

Lemma unbound_table_single_score :
  dt = "mfe" \/ dt = "cai" -> percent a <> None ->
  fetch_steering_vector W a = (Raise (UnboundLocalError "df"), []).
Proof.
  intros Hdt Hp. unfold fetch_steering_vector, fetch_steering_vector_from, select_sequences.
  fold dt. destruct (percent a) as [p|]; [|congruence].
  destruct Hdt as [-> | ->]; reflexivity.
Qed.

Lemma unbound_table_blend :
  dt = "mfe_cai" -> lambda_ a <> None ->
  fetch_steering_vector W a = (Raise (UnboundLocalError "df"), []).
Proof.
  intros Hdt Hl. unfold fetch_steering_vector, fetch_steering_vector_from, select_sequences.
  fold dt. destruct (lambda_ a) as [lam|]; [|congruence].
  rewrite Hdt. reflexivity.
Qed.

Lemma no_table_mode_returns v tr :
  fetch_steering_vector W a = (Ok v, tr) -> dt = "fasta".
Proof.
  unfold fetch_steering_vector, fetch_steering_vector_from, select_sequences. fold dt.
  destruct (String.eqb dt "mfe") eqn:E1.
  { apply String.eqb_eq in E1. rewrite E1.
    destruct (percent a); cbn; discriminate. }
  destruct (String.eqb dt "cai") eqn:E2.
  { apply String.eqb_eq in E2. rewrite E2.
    destruct (percent a); cbn; discriminate. }
  destruct (String.eqb dt "mfe_cai") eqn:E3.
  { apply String.eqb_eq in E3. rewrite E3.
    destruct (lambda_ a); cbn; discriminate. }
  destruct (String.eqb dt "fasta") eqn:E4.
  { intros _. now apply String.eqb_eq. }
  cbn. discriminate.
Qed.
End Validation.

(** Whether a computation came back with a value. *)
Definition returned {A} (m : M A) : bool :=
  match m with
  | (Ok _, _) => true
  | (Raise _, _) => false
  end.

Lemma returned_value {A} (m : M A) :
  returned m = true -> exists v tr, m = (Ok v, tr).
Proof.
  destruct m as [[v|e] tr]; simpl; intros H; [now exists v, tr | discriminate H].
Qed.

(** On the demo world the FASTA mode runs to completion, also when the
    mode is spelled in capitals. *)
Lemma demo_fasta_returned :
  returned (fetch_steering_vector Demo.world (Demo.fasta_call "fasta")) = true.
Proof. vm_compute. reflexivity. Qed.

Lemma demo_uppercase_returned :
  returned (fetch_steering_vector Demo.world (Demo.fasta_call "FASTA")) = true.
Proof. vm_compute. reflexivity. Qed.

(** C6, as stated, fails: ["FASTA"] is none of the four listed spellings,
    yet the call is accepted, parses both files and returns a vector. *)
Lemma uppercase_fasta_is_accepted :
  ~ In (data_type (Demo.fasta_call "FASTA")) accepted_data_types /\
  ~ raises_at_once Demo.world (Demo.fasta_call "FASTA").
Proof.
  split.
  - simpl. intros [H|[H|[H|[H|[]]]]]; discriminate H.
  - intros [e H]. pose proof demo_uppercase_returned as R.
    rewrite H in R. discriminate R.
Qed.

(** C6 (amended): the data type is compared after lower-casing.  When the
    lower-cased [data_type] is none of 'mfe', 'cai', 'mfe_cai', 'fasta',
    the call raises [ValueError] at once; when it is 'mfe_cai' and
    [lambda_] is [None], the call raises [ValueError] at once.  In both
    cases nothing has been selected, tokenized or computed. *)
Theorem data_type_validation (W : World) (a : FetchArgs) :
  (~ In (PyStr.lower (data_type a)) accepted_data_types ->
   fetch_steering_vector W a =
     (Raise (ValueError "data_type must be 'mfe' or 'cai' or 'mfe_cai' or 'fasta'."), []))
  /\ (PyStr.lower (data_type a) = "mfe_cai" -> lambda_ a = None ->
      fetch_steering_vector W a =
        (Raise (ValueError "Must provide 'lambda_' for 'mfe_cai' data type."), [])).
Proof.
  split.
  - apply unknown_data_type_raises.
  - apply missing_lambda_raises.
Qed.

Lemma data_type_validation_witness :
  fetch_steering_vector Demo.world
    (positional "protein" Demo.toy_model Demo.toy_tokenizer "cuda:0") =
    (Raise (ValueError "data_type must be 'mfe' or 'cai' or 'mfe_cai' or 'fasta'."), [])
  /\ fetch_steering_vector Demo.world
       (positional "MFE_CAI" Demo.toy_model Demo.toy_tokenizer "cuda:0") =
     (Raise (ValueError "Must provide 'lambda_' for 'mfe_cai' data type."), []).
Proof.
  split.
  - apply (proj1 (data_type_validation Demo.world _)).
    simpl. intros [H|[H|[H|[H|[]]]]]; discriminate H.
  - apply (proj2 (data_type_validation Demo.world _)); reflexivity.
Defined.

(** C7: in FASTA mode with both paths missing the call fails on the
    [assert] of line 44, before any file is opened and before the
    tokenizer or the network is touched; the exception is the whole
    outcome of the call. *)
Theorem fasta_without_paths (W : World) (a : FetchArgs) :
  PyStr.lower (data_type a) = "fasta" ->
  high_fa_path a = None -> low_fa_path a = None ->
  fetch_steering_vector W a = (Raise (AssertionError 44), []).
Proof.
  intros Hdt Hhigh _. apply missing_path_raises; auto.
Qed.

Lemma fasta_without_paths_witness :
  fetch_steering_vector Demo.world
    (positional "fasta" Demo.toy_model Demo.toy_tokenizer "cuda:0") =
  (Raise (AssertionError 44), []).
Proof.
  apply fasta_without_paths; reflexivity.
Defined.

(** C9: with data type 'mfe' or 'cai' and a [percent], and with data type
    'mfe_cai' and a [lambda_], the call raises [UnboundLocalError] (a
    [NameError]) for [df] before any sequence is selected; hence a call
    that returns a vector is always a FASTA call, and such calls exist. *)
Theorem score_table_modes_hit_unbound_df (W : World) (a : FetchArgs) :
  let dt := PyStr.lower (data_type a) in
  (dt = "mfe" \/ dt = "cai" -> percent a <> None ->
   fetch_steering_vector W a = (Raise (UnboundLocalError "df"), []))
  /\ (dt = "mfe_cai" -> lambda_ a <> None ->
      fetch_steering_vector W a = (Raise (UnboundLocalError "df"), []))
  /\ is_name_error (UnboundLocalError "df") = true
  /\ (forall v tr, fetch_steering_vector W a = (Ok v, tr) -> dt = "fasta")
  /\ (exists v tr,
        fetch_steering_vector Demo.world (Demo.fasta_call "fasta") = (Ok v, tr)).
Proof.
  cbv zeta. repeat split.
  - apply unbound_table_single_score.
  - apply unbound_table_blend.
  - apply no_table_mode_returns.
  - apply returned_value, demo_fasta_returned.
Qed.

Lemma score_table_modes_hit_unbound_df_witness :
  fetch_steering_vector Demo.world (Demo.table_call "cai")
    = (Raise (UnboundLocalError "df"), [])
  /\ fetch_steering_vector Demo.world (Demo.table_call "mfe_cai")
     = (Raise (UnboundLocalError "df"), []).
Proof.
  split.
  - apply (proj1 (score_table_modes_hit_unbound_df Demo.world _)).
    + right; reflexivity.
    + discriminate.
  - apply (proj1 (proj2 (score_table_modes_hit_unbound_df Demo.world _))).
    + reflexivity.
    + discriminate.
Defined.

(** When line 127 is reached the namespace holds the imports, the three
    functions and [parser]; [model_path] is none of them and no
    built-in. *)
Lemma model_path_not_bound :
  load_name (<["parser" := PyParser []]> module_namespace) "model_path"
  = Raise (NameError "model_path").
Proof. reflexivity. Qed.

Lemma first_add_argument_fails :
  add_argument (<["parser" := PyParser []]> module_namespace) "model_path"
               (fun g => load_name g "model_path")
  = Raise (NameError "model_path").
Proof.
  unfold add_argument.
  change (load_name (<["parser" := PyParser []]> module_namespace) "parser")
    with (@Ok pyobj (PyParser [])).
  change (load_name (<["parser" := PyParser []]> module_namespace) "str")
    with (@Ok pyobj (PyGlobal "str")).
  cbn [rbind]. now rewrite model_path_not_bound.
Qed.

(** With [model_path] bound beforehand, the same block on the demo world
    parses the arguments, loads tokenizer, configuration and network,
    moves the network to the device and calls [fetch_steering_vector],
    which misses its two paths. *)
Lemma main_with_model_path_goes_on :
  main (<["model_path" := PyStr "checkpoint"]> module_namespace) Demo.world []
  = (Raise (AssertionError 44),
     [EvParseArgs; EvLoad "get_tokenizer"; EvLoad "PeftConfig.from_pretrained";
      EvLoad "load_model"; EvLoad "PeftModel.from_pretrained"; EvLoad "merge_and_unload";
      EvTo "cuda:0"]).
Proof. vm_compute. reflexivity. Qed.

(** C10: run as a program, the script stops with [NameError] for
    [model_path] while the first argument is being added to the parser
    (line 127), whatever the command line and whatever the world: no
    argument is parsed, nothing is loaded, computed or saved. *)
Theorem script_stops_at_model_path (W : World) (argv : list string) :
  script W argv = (Raise (NameError "model_path"), []).
Proof.
  unfold script.
  change (module_namespace !! "__name__") with (Some (PyStr "__main__")).
  unfold main.
  change (load_name module_namespace "argparse") with (@Ok pyobj (PyGlobal "argparse")).
  rewrite bind_lift_ok, first_add_argument_fails. reflexivity.
Qed.


(** ** Percentile selection *)

Lemma tenth_is_lit_0_1 :
  Float64.div (Float64.of_Z 1) (Float64.of_Z 10) = Float64.lit_0_1.
Proof. reflexivity. Qed.

(** Line 60 for a table of 100 rows and [percent = 0.1]: the product
    [100 * 0.1] rounds to 10.0 in binary64, so [n] would be 10. *)
Lemma int_of_hundred_tenths :
  Float64.to_int (Float64.mul (Float64.of_Z 100) Float64.lit_0_1) = Ok 10.
Proof. reflexivity. Qed.

(** In a score-table mode with a [percent] (and, for 'mfe_cai', a
    [lambda_]) lines 33-70 stop at the first read of [df]. *)
Lemma score_table_selection_stops W a :
  PyStr.lower (data_type a) = "mfe" \/ PyStr.lower (data_type a) = "cai"
  \/ (PyStr.lower (data_type a) = "mfe_cai" /\ lambda_ a <> None) ->
  percent a <> None ->
  select_sequences W None a = (Raise (UnboundLocalError "df"), []).
Proof.
  intros Hdt Hp. unfold select_sequences.
  destruct (percent a) as [p|]; [|congruence].
  destruct Hdt as [-> | [-> | [-> Hlam]]]; try reflexivity.
  destruct (lambda_ a) as [lam|]; [reflexivity | congruence].
Qed.

(** C5 (the code fails the claim): a call in a score-table mode with
    [percent = 0.1] selects no rows at all.  The table [df] that lines
    57-62 rank is a local name that nothing has bound, so the call stops
    with [UnboundLocalError] at its first read (line 57, or line 42 for
    'mfe_cai') before [n] is computed and before [nlargest] and
    [nsmallest] are called, whatever table the caller has in mind; for a
    table of 100 rows line 60 would have given [n = int(100 * 0.1) = 10],
    as the claim says. *)
Theorem percent_selection_is_never_reached (W : World) (a : FetchArgs) :
  PyStr.lower (data_type a) = "mfe" \/ PyStr.lower (data_type a) = "cai"
  \/ (PyStr.lower (data_type a) = "mfe_cai" /\ lambda_ a <> None) ->
  percent a = Some Float64.lit_0_1 ->
  select_sequences W None a = (Raise (UnboundLocalError "df"), [])
  /\ fetch_steering_vector W a = (Raise (UnboundLocalError "df"), [])
  /\ Float64.to_int (Float64.mul (Float64.of_Z 100) Float64.lit_0_1) = Ok 10.
Proof.
  intros Hdt Hp.
  assert (Hsel : select_sequences W None a = (Raise (UnboundLocalError "df"), []))
    by (apply score_table_selection_stops; [exact Hdt | rewrite Hp; discriminate]).
  split; [exact Hsel|]. split; [|exact int_of_hundred_tenths].
  unfold fetch_steering_vector, fetch_steering_vector_from. now rewrite Hsel.
Qed.

Lemma percent_selection_is_never_reached_witness :
  select_sequences Demo.world None (Demo.table_call "cai")
  = (Raise (UnboundLocalError "df"), [])
  /\ fetch_steering_vector Demo.world (Demo.table_call "cai")
     = (Raise (UnboundLocalError "df"), [])
  /\ Float64.to_int (Float64.mul (Float64.of_Z 100) Float64.lit_0_1) = Ok 10.
Proof.
  apply percent_selection_is_never_reached.
  - right. left. reflexivity.
  - reflexivity.
Defined.

Create HintDb safe.

Ltac safe_step :=
  match goal with
  | |- rsafe _ (Ok _) => apply rsafe_ok
  | |- rsafe _ (Raise _) => apply rsafe_raise; exact I
  | |- rsafe _ (rbind _ _) => apply rsafe_rbind; [|intros ? _]
  | |- rsafe _ (rmapM _ _) => apply rsafe_rmapM; intros ?
  | |- rsafe _ (rzip_with _ _ _) => apply rsafe_rzip_with; intros ? ?
  | |- rsafe _ (of_answer _) => apply rsafe_of_answer
  | |- rsafe _ (load_local _ _) => apply rsafe_load_local
  | |- rsafe _ (match ?x with _ => _ end) => destruct x
  | |- msafe _ (ret _) => apply msafe_ret
  | |- msafe _ (raise _) => apply msafe_raise; exact I
  | |- msafe _ (emit _) => apply msafe_emit
  | |- msafe _ (lift _) => apply msafe_lift
  | |- msafe _ (extern _ _) => apply msafe_extern
  | |- msafe _ (bind _ _) => apply msafe_bind; [|intros ? _ _]
  | |- msafe _ (mapM _ _) => apply msafe_mapM; intros ?
  | |- msafe _ (match ?x with _ => _ end) => destruct x
  end.

Ltac safe := repeat (safe_step || (progress auto with safe)).

Lemma getitem_safe df col : rsafe not_assertion (getitem df col).
Proof. unfold getitem. safe. Qed.

Lemma setitem_safe df col values : rsafe not_assertion (setitem df col values).
Proof. unfold setitem. safe. Qed.

Lemma neg_cell_safe c : rsafe not_assertion (neg_cell c).
Proof. unfold neg_cell. safe. Qed.

Lemma scale_cell_safe k c : rsafe not_assertion (scale_cell k c).
Proof. unfold scale_cell. safe. Qed.

Lemma add_cell_safe x y : rsafe not_assertion (add_cell x y).
Proof. unfold add_cell. safe. Qed.

Lemma ge_cell_safe k c : rsafe not_assertion (ge_cell k c).
Proof. unfold ge_cell. safe. Qed.

Lemma le_cell_safe k c : rsafe not_assertion (le_cell k c).
Proof. unfold le_cell. safe. Qed.

Lemma to_int_safe x : rsafe not_assertion (Float64.to_int x).
Proof. unfold Float64.to_int. safe. Qed.

Lemma dict_getitem_safe sequences x : rsafe not_assertion (dict_getitem sequences x).
Proof. unfold dict_getitem. safe. Qed.

#[local] Hint Resolve getitem_safe setitem_safe neg_cell_safe scale_cell_safe
  add_cell_safe ge_cell_safe le_cell_safe to_int_safe dict_getitem_safe : safe.

Lemma select_n_safe ahead n col df : rsafe not_assertion (select_n ahead n col df).
Proof. unfold select_n. safe. Qed.

#[local] Hint Resolve select_n_safe : safe.

Lemma blend_scores_safe df lam : rsafe not_assertion (blend_scores df lam).
Proof. unfold blend_scores. safe. Qed.

Lemma filter_by_length_safe df sequences lo hi :
  rsafe not_assertion (filter_by_length df sequences lo hi).
Proof. unfold filter_by_length. safe. Qed.

Lemma rank_rows_safe df p col : rsafe not_assertion (rank_rows df p col).
Proof. unfold rank_rows, nlargest, nsmallest. safe. Qed.

#[local] Hint Resolve blend_scores_safe filter_by_length_safe rank_rows_safe : safe.

Lemma percent_rows_safe df sequences p lo hi col :
  rsafe not_assertion (percent_rows df sequences p lo hi col).
Proof. unfold percent_rows. safe. Qed.

Lemma rows_to_sequences_safe sequences top bottom :
  rsafe not_assertion (rows_to_sequences sequences top bottom).
Proof. unfold rows_to_sequences. safe. Qed.

Lemma size_safe t k : rsafe not_assertion (size t k).
Proof. unfold size. safe. Qed.

Lemma slice_rows_safe t i b : rsafe not_assertion (slice_rows t i b).
Proof. unfold slice_rows. safe. Qed.

Lemma torch_stack_safe ts : rsafe not_assertion (torch_stack ts).
Proof. unfold torch_stack. safe. Qed.

Lemma cat2_dim1_safe x y : rsafe not_assertion (cat2_dim1 x y).
Proof. unfold cat2_dim1. safe. Qed.

#[local] Hint Resolve percent_rows_safe rows_to_sequences_safe size_safe
  slice_rows_safe torch_stack_safe cat2_dim1_safe : safe.

Lemma torch_cat_dim1_safe ts : rsafe not_assertion (torch_cat_dim1 ts).
Proof.
  unfold torch_cat_dim1. destruct ts as [|t rest]; [safe|].
  assert (H : rsafe not_assertion (Ok t)) by safe.
  revert H. generalize (Ok t). induction rest as [|u rest IH]; intros acc Hacc; simpl.
  - exact Hacc.
  - apply IH. safe.
Qed.

Lemma broadcast_safe {A B C} (f : A -> B -> result C) (l : list A) (k : list B) :
  (forall x y, rsafe not_assertion (f x y)) -> rsafe not_assertion (broadcast f l k).
Proof.
  intros Hf. unfold broadcast. safe; apply Hf.
Qed.

Lemma np_sub_safe prec emax x y : rsafe not_assertion (np_sub prec emax x y).
Proof.
  unfold np_sub. repeat (apply broadcast_safe; intros). safe.
Qed.

#[local] Hint Resolve torch_cat_dim1_safe np_sub_safe : safe.

Lemma group_mean_safe W m ids : msafe not_assertion (group_mean W m ids).
Proof. unfold group_mean. safe. Qed.

Lemma encode_sequences_safe seqs tok n : msafe not_assertion (encode_sequences seqs tok n).
Proof. unfold encode_sequences. safe. Qed.

(** The only assertion that the selection of lines 33-70 can fail is the
    one of line 44. *)
Definition not_line_79 (e : exn) : Prop := e <> AssertionError 79.

Lemma not_assertion_not_line_79 e : not_assertion e -> not_line_79 e.
Proof. intros H ->. exact H. Qed.

Lemma select_sequences_not_line_79 W df a : msafe not_line_79 (select_sequences W df a).
Proof.
  unfold select_sequences.
  apply msafe_bind.
  - repeat match goal with
           | |- msafe _ (if ?b then _ else _) => destruct b
           | |- msafe _ (match ?x with _ => _ end) => destruct x
           end;
      try solve [apply (msafe_weaken not_assertion); [apply not_assertion_not_line_79 | safe]].
    all: intros e tr [= <- _]; unfold not_line_79; congruence.
  - intros [[col d] fa] _ _.
    apply (msafe_weaken not_assertion); [apply not_assertion_not_line_79 |].
    destruct (String.eqb _ _); safe.
Qed.

(** ** Encoding *)

(** What the tokenizer promises for [padding="max_length"] with
    [truncation=True]: when it returns, [input_ids] has one row per text
    and [max_length] ids in every row. *)
Definition pads_to_max_length (tok : Tokenizer) : Prop :=
  forall texts max_length ids,
    tok texts PadMaxLength true max_length = Returns ids ->
    dims ids = [length texts; max_length]
    /\ length (rows ids) = length texts
    /\ Forall (fun row => length row = max_length) (rows ids).

(** The texts handed to the tokenizer (line 20). *)
Definition kmer_texts (sequences : list string) : list string :=
  map (fun seq => PyStr.join " " (mytok seq 3 3)) sequences.

Lemma mytok_nth (k step : nat) (s : string) (i : nat) :
  (1 <= k)%nat -> (i + k <= String.length s)%nat ->
  nth_error (mytok s k step) i = Some (substring i k s).
Proof.
  intros Hk. revert i. induction s as [|c s IH]; intros i Hi; simpl in Hi.
  - lia.
  - cbn [mytok]. replace (k <=? String.length (String c s))%nat with true
      by (symmetry; apply Nat.leb_le; simpl; lia).
    destruct i as [|i].
    + reflexivity.
    + cbn [nth_error]. rewrite IH by lia. reflexivity.
Qed.

Lemma mytok_length (k step : nat) (s : string) :
  (1 <= k)%nat -> length (mytok s k step) = (String.length s + 1 - k)%nat.
Proof.
  intros Hk. induction s as [|c s IH].
  - simpl. lia.
  - cbn [mytok]. destruct (Nat.leb_spec k (String.length (String c s))) as [H|H];
      simpl in H |- *; [rewrite IH|]; lia.
Qed.

Lemma encode_padded (tok : Tokenizer) (sequences : list string) (n : nat) ids tr :
  pads_to_max_length tok ->
  encode_sequences sequences tok n = (Ok ids, tr) ->
  dims ids = [length sequences; n]
  /\ length (rows ids) = length sequences
  /\ Forall (fun row => length row = n) (rows ids).
Proof.
  intros Hpad. unfold encode_sequences, extern.
  destruct (tok _ PadMaxLength true n) as [t|w] eqn:E; simpl; [|discriminate].
  intros [= <- _]. apply Hpad in E. now rewrite length_map in E.
Qed.

Lemma demo_tokenizer_pads : pads_to_max_length Demo.toy_tokenizer.
Proof.
  assert (Hrow : forall m text, length (Demo.encode_text PadMaxLength true m text) = m).
  { intros m text. unfold Demo.encode_text.
    rewrite length_app, repeat_length, length_firstn. lia. }
  intros texts m ids. unfold Demo.toy_tokenizer.
  destruct texts as [|x texts]; [discriminate|].
  intros [= <-]. cbn [dims rows]. repeat split.
  - f_equal; [simpl; now rewrite length_map|]. f_equal. exact (Hrow m x).
  - simpl. now rewrite length_map.
  - change (Forall (fun row => length row = m)
                   (map (Demo.encode_text PadMaxLength true m) (x :: texts))).
    apply List.Forall_map, Forall_true. intros text. apply Hrow.
Qed.

Lemma substring_0_length (k : nat) (s : string) :
  (k <= String.length s)%nat -> String.length (substring 0 k s) = k.
Proof.
  revert s. induction k as [|k IH]; intros s H.
  - now destruct s.
  - destruct s as [|c s]; simpl in H; [lia|]. simpl. rewrite IH; lia.
Qed.

Lemma mytok_token_length (k step : nat) (s : string) :
  Forall (fun t => String.length t = k) (mytok s k step).
Proof.
  induction s as [|c s IH]; [constructor|].
  cbn [mytok]. destruct (Nat.leb_spec k (String.length (String c s))) as [H|H]; [|constructor].
  constructor; [|exact IH]. now apply substring_0_length.
Qed.

(** Tokens of three characters joined by single spaces: token [j] sits at
    offset [4 * j] of the text, with a space behind it unless it is the last. *)
Lemma join_three_length (toks : list string) :
  Forall (fun t => String.length t = 3%nat) toks ->
  String.length (PyStr.join " " toks) = (4 * length toks - 1)%nat.
Proof.
  unfold PyStr.join. induction 1 as [|x l Hx Hl IH]; [reflexivity|].
  destruct x as [|a [|b [|c [|? ?]]]]; try discriminate Hx.
  destruct l as [|y l]; [reflexivity|].
  change (String.concat " " (String a (String b (String c "")) :: y :: l))
    with (String a (String b (String c (String " " (String.concat " " (y :: l)))))).
  cbn [String.length]. rewrite IH. cbn [length]. lia.
Qed.

Lemma join_three_token (toks : list string) (j : nat) (t : string) :
  Forall (fun t => String.length t = 3%nat) toks ->
  nth_error toks j = Some t ->
  substring (4 * j) 3 (PyStr.join " " toks) = t
  /\ ((j + 1 < length toks)%nat ->
      String.get (4 * j + 3) (PyStr.join " " toks) = Some " "%char).
Proof.
  unfold PyStr.join. intros H. revert j. induction H as [|x l Hx Hl IH]; intros j Hj.
  - destruct j; discriminate Hj.
  - destruct x as [|a [|b [|c [|? ?]]]]; try discriminate Hx.
    destruct l as [|y l].
    + destruct j as [|j]; [|destruct j; discriminate Hj].
      injection Hj as <-. split; [reflexivity|]. cbn [length]. lia.
    + change (String.concat " " (String a (String b (String c "")) :: y :: l))
        with (String a (String b (String c (String " " (String.concat " " (y :: l)))))).
      destruct j as [|j].
      * injection Hj as <-. split; [|reflexivity].
        cbn [Nat.mul substring]. now destruct (String.concat " " (y :: l)).
      * cbn [nth_error] in Hj. destruct (IH j Hj) as [IH1 IH2].
        replace (4 * S j)%nat with (S (S (S (S (4 * j))))) by lia.
        split.
        -- exact IH1.
        -- intros Hlt. apply IH2. cbn [length] in Hlt |- *. lia.
Qed.

Lemma substring_substring (a b j k : nat) (s : string) :
  (a + b <= k)%nat ->
  substring a b (substring j k s) = substring (j + a) b s.
Proof.
  revert a b j k. induction s as [|c s IH]; intros a b j k H.
  - destruct j, k, a, b; reflexivity.
  - destruct j as [|j].
    + cbn [Nat.add]. destruct k as [|k].
      * assert (a = 0 /\ b = 0)%nat as [-> ->] by lia. reflexivity.
      * cbn [substring]. destruct a as [|a].
        -- destruct b as [|b]; [reflexivity|]. cbn [substring]. f_equal.
           apply (IH 0 b 0 k)%nat. lia.
        -- cbn [substring]. apply (IH a b 0 k)%nat. lia.
    + cbn [substring Nat.add]. apply IH. exact H.
Qed.

(** C4: [encode_sequences] gives the tokenizer one text per sequence, with
    [padding="max_length"], [truncation=True] and [max_length] 1024.  The
    text of a sequence is made of its 3-character tokens joined by single
    spaces: token [j], the slice [seq[j : j + 3]], sits at offset [4 * j]
    of the text and is followed by one space unless it is the last, so
    that the last two characters of a token are the first two of the
    next, and the text has no other character.  A tokenizer that honours
    the padding request returns 1024 ids per sequence. *)
Theorem encode_sequences_tokenizes_windows (tok : Tokenizer) (sequences : list string) :
  exists texts : list string,
    encode_sequences sequences tok encode_sequences_default_max_length
      = extern (EvTokenize texts) (tok texts PadMaxLength true 1024%nat)
    /\ length texts = length sequences
    /\ (forall i seq text,
          nth_error sequences i = Some seq -> nth_error texts i = Some text ->
          String.length text = (4 * (String.length seq - 2) - 1)%nat
          /\ forall j, (j + 3 <= String.length seq)%nat ->
               substring (4 * j) 3 text = substring j 3 seq
               /\ ((j + 4 <= String.length seq)%nat ->
                   String.get (4 * j + 3) text = Some " "%char
                   /\ substring (4 * j + 1) 2 text = substring (4 * (j + 1)) 2 text))
    /\ (pads_to_max_length tok ->
        forall ids tr,
          encode_sequences sequences tok encode_sequences_default_max_length = (Ok ids, tr) ->
          dims ids = [length sequences; 1024%nat]
          /\ Forall (fun row => length row = 1024%nat) (rows ids)).
Proof.
  exists (map (fun seq => PyStr.join " " (mytok seq 3 3)) sequences).
  split; [reflexivity|]. split; [apply length_map|]. split.
  - intros i seq text Hseq Htext.
    rewrite nth_error_map, Hseq in Htext. injection Htext as <-.
    pose proof (mytok_token_length 3 3 seq) as Hlen.
    split.
    + rewrite join_three_length by exact Hlen. rewrite mytok_length by lia. lia.
    + assert (Htok : forall j, (j + 3 <= String.length seq)%nat ->
                substring (4 * j) 3 (PyStr.join " " (mytok seq 3 3)) = substring j 3 seq).
      { intros j Hj.
        apply (join_three_token _ j _ Hlen). apply mytok_nth; [lia | exact Hj]. }
      intros j Hj. split; [exact (Htok j Hj)|]. intros Hnext. split.
      * apply (join_three_token _ j (substring j 3 seq) Hlen).
        -- apply mytok_nth; [lia | exact Hj].
        -- rewrite mytok_length by lia. lia.
      * rewrite <- (substring_substring 1 2 (4 * j) 3) by lia.
        rewrite <- (Nat.add_0_r (4 * (j + 1))).
        rewrite <- (substring_substring 0 2 (4 * (j + 1)) 3) by lia.
        rewrite (Htok j Hj), (Htok (j + 1)%nat) by lia.
        rewrite !substring_substring by lia. f_equal. lia.
  - intros Hpad ids tr Henc.
    destruct (encode_padded _ _ _ _ _ Hpad Henc) as (Hdims & _ & Hrows).
    now split.
Qed.

Lemma demo_encode_returned :
  returned (encode_sequences ["ATGGCC"] Demo.toy_tokenizer
              encode_sequences_default_max_length) = true.
Proof. vm_compute. reflexivity. Qed.

Lemma demo_encode_texts :
  snd (encode_sequences ["ATGGCC"] Demo.toy_tokenizer encode_sequences_default_max_length)
  = [EvTokenize ["ATG TGG GGC GCC"]].
Proof. reflexivity. Qed.

Lemma encode_sequences_tokenizes_windows_witness :
  snd (encode_sequences ["ATGGCC"] Demo.toy_tokenizer encode_sequences_default_max_length)
  = [EvTokenize ["ATG TGG GGC GCC"]]
  /\ exists ids tr,
       encode_sequences ["ATGGCC"] Demo.toy_tokenizer encode_sequences_default_max_length
         = (Ok ids, tr)
       /\ dims ids = [1%nat; 1024%nat]
       /\ Forall (fun row => length row = 1024%nat) (rows ids).
Proof.
  split; [exact demo_encode_texts|].
  destruct (encode_sequences_tokenizes_windows Demo.toy_tokenizer ["ATGGCC"])
    as (texts & _ & _ & _ & Hpad).
  destruct (returned_value _ demo_encode_returned) as (ids & tr & E).
  exists ids, tr. split; [exact E|].
  exact (Hpad demo_tokenizer_pads ids tr E).
Defined.

(** ** The token-length assertion *)

Definition is_forward (e : event) : bool :=
  match e with
  | EvForward _ => true
  | _ => false
  end.

(** Every event of the computation satisfies [P]. *)
Definition only {A} (P : event -> Prop) (m : M A) : Prop := Forall P (snd m).

Lemma only_ret {A} P (x : A) : only P (ret x).
Proof. constructor. Qed.

Lemma only_raise {A} P e : only P (@raise A e).
Proof. constructor. Qed.

Lemma only_lift {A} P (r : result A) : only P (lift r).
Proof. constructor. Qed.

Lemma only_emit (P : event -> Prop) ev : P ev -> only P (emit ev).
Proof. intros H. repeat constructor. exact H. Qed.

Lemma only_extern {A} (P : event -> Prop) ev (x : answer A) : P ev -> only P (extern ev x).
Proof. intros H. repeat constructor. exact H. Qed.

Lemma only_bind {A B} P (m : M A) (k : A -> M B) :
  only P m -> (forall x, only P (k x)) -> only P (bind m k).
Proof.
  unfold only, bind. intros Hm Hk. destruct m as [[x|e] tr]; simpl in *; [|exact Hm].
  specialize (Hk x). destruct (k x) as [r tr']. simpl in *.
  apply Forall_app. now split.
Qed.

Lemma select_sequences_no_forward W df a :
  only (fun e => is_forward e = false) (select_sequences W df a).
Proof.
  unfold select_sequences.
  repeat first
    [ apply only_ret | apply only_raise | apply only_lift
    | apply only_extern; reflexivity
    | apply only_bind; [|intros ?]
    | match goal with
      | |- only _ (if ?b then _ else _) => destruct b
      | |- only _ (match ?x with _ => _ end) => destruct x
      end ].
Qed.

Section TokenLengths.
Variable W : World.
Variable df : option DataFrame.
Variable a : FetchArgs.

(** A mismatch between the two token lengths fails the assertion of line
    79; by then the network has been put in evaluation mode and the
    tokenizer has run twice, and that is all. *)
Lemma mismatch_fails_assertion top low tr0 ids_top tr1 ids_low tr2 n1 n2 :
  select_sequences W df a = (Ok (top, low), tr0) ->
  encode_sequences top (tokenizer a) 1024 = (Ok ids_top, tr1) ->
  encode_sequences low (tokenizer a) 1024 = (Ok ids_low, tr2) ->
  size ids_top 1 = Ok n1 -> size ids_low 1 = Ok n2 -> n1 <> n2 ->
  fetch_steering_vector_from W df a
    = (Raise (AssertionError 79), (tr0 ++ [EvEval] ++ tr1 ++ tr2)%list).
Proof.
  intros Hsel Htop Hlow Hn1 Hn2 Hne.
  unfold fetch_steering_vector_from. rewrite (bind_step _ _ _ _ Hsel).
  unfold contrast_groups.
  rewrite (bind_step (emit EvEval) _ tt [EvEval] eq_refl).
  rewrite (bind_step _ _ _ _ Htop), (bind_step _ _ _ _ Hlow).
  rewrite Hn1, Hn2. cbn [lift bind fst snd].
  apply Nat.eqb_neq in Hne. rewrite Hne. cbn.
  now rewrite !app_nil_r.
Qed.

(** With a tokenizer that pads to [max_length] the two lengths are both
    1024, and no run ends in the assertion of line 79. *)
Lemma padded_never_fails_assertion :
  pads_to_max_length (tokenizer a) ->
  msafe not_line_79 (fetch_steering_vector_from W df a).
Proof.
  intros Hpad. unfold fetch_steering_vector_from.
  apply msafe_bind; [apply select_sequences_not_line_79|].
  intros [top low] _ _. unfold contrast_groups.
  apply msafe_bind; [apply msafe_emit|]. intros _ _ _.
  apply msafe_bind;
    [apply (msafe_weaken not_assertion);
     [apply not_assertion_not_line_79 | apply encode_sequences_safe]|].
  intros ids_top tr1 Htop.
  apply msafe_bind;
    [apply (msafe_weaken not_assertion);
     [apply not_assertion_not_line_79 | apply encode_sequences_safe]|].
  intros ids_low tr2 Hlow.
  destruct (encode_padded _ _ _ _ _ Hpad Htop) as (Hd1 & _).
  destruct (encode_padded _ _ _ _ _ Hpad Hlow) as (Hd2 & _).
  unfold size. rewrite Hd1, Hd2. cbn [nth_error]. rewrite !bind_lift_ok.
  rewrite Nat.eqb_refl. cbn [negb].
  apply (msafe_weaken not_assertion); [apply not_assertion_not_line_79|].
  pose proof group_mean_safe. safe.
Qed.
End TokenLengths.

(** C8: when the tokenized high and low groups differ in token length, the
    call ends in the assertion failure of line 79 and no forward pass has
    been made; and with a tokenizer that pads to the fixed length, every
    encoded group has token length 1024, so that no call ends in that
    assertion failure. *)
Theorem token_length_assertion (W : World) (df : option DataFrame) (a : FetchArgs) :
  (forall top low tr0 ids_top tr1 ids_low tr2 n1 n2,
     select_sequences W df a = (Ok (top, low), tr0) ->
     encode_sequences top (tokenizer a) 1024 = (Ok ids_top, tr1) ->
     encode_sequences low (tokenizer a) 1024 = (Ok ids_low, tr2) ->
     size ids_top 1 = Ok n1 -> size ids_low 1 = Ok n2 -> n1 <> n2 ->
     exists tr,
       fetch_steering_vector_from W df a = (Raise (AssertionError 79), tr)
       /\ Forall (fun e => is_forward e = false) tr)
  /\ (pads_to_max_length (tokenizer a) ->
      (forall seqs ids tr,
         encode_sequences seqs (tokenizer a) 1024 = (Ok ids, tr) ->
         size ids 1 = Ok 1024%nat)
      /\ forall tr,
           fetch_steering_vector_from W df a <> (Raise (AssertionError 79), tr)).
Proof.
  split.
  - intros top low tr0 ids_top tr1 ids_low tr2 n1 n2 Hsel Htop Hlow Hn1 Hn2 Hne.
    eexists. split.
    + eapply mismatch_fails_assertion; eassumption.
    + pose proof (select_sequences_no_forward W df a) as Hquiet.
      unfold only in Hquiet. rewrite Hsel in Hquiet. simpl in Hquiet.
      unfold encode_sequences, extern in Htop, Hlow.
      injection Htop as _ <-. injection Hlow as _ <-.
      apply Forall_app. split; [exact Hquiet|]. repeat constructor.
  - intros Hpad. split.
    + intros seqs ids tr Henc.
      destruct (encode_padded _ _ _ _ _ Hpad Henc) as (Hdims & _).
      unfold size. now rewrite Hdims.
    + intros tr H.
      now apply (padded_never_fails_assertion W df a Hpad _ _ H).
Qed.

Lemma token_length_assertion_witness :
  (exists tr,
     fetch_steering_vector_from Demo.world None Demo.ragged_call
       = (Raise (AssertionError 79), tr)
     /\ Forall (fun e => is_forward e = false) tr)
  /\ forall tr,
       fetch_steering_vector_from Demo.world None (Demo.fasta_call "fasta")
         <> (Raise (AssertionError 79), tr).
Proof.
  split.
  - eapply (proj1 (token_length_assertion Demo.world None Demo.ragged_call)).
    + vm_compute. reflexivity.
    + vm_compute. reflexivity.
    + vm_compute. reflexivity.
    + vm_compute. reflexivity.
    + vm_compute. reflexivity.
    + vm_compute. lia.
  - apply (proj2 (token_length_assertion Demo.world None (Demo.fasta_call "fasta"))
             demo_tokenizer_pads).
Defined.

(** ** The contrast of the two groups *)

Lemma lift_ok {A} (r : result A) (x : A) (tr : trace) :
  lift r = (Ok x, tr) -> r = Ok x /\ tr = [].
Proof. unfold lift. now intros [= -> <-]. Qed.

(** Lines 72-114 return exactly when both groups are encoded to the same
    token length, both means are computed and the subtraction goes
    through; the value is the difference, negated in 'mfe' mode. *)
Lemma contrast_groups_ok W a top low v tr :
  contrast_groups W a top low = (Ok v, tr) <->
  exists ids_top tr1 ids_low tr2 n top_mean tr3 low_mean tr4 difference,
    encode_sequences top (tokenizer a) 1024 = (Ok ids_top, tr1)
    /\ encode_sequences low (tokenizer a) 1024 = (Ok ids_low, tr2)
    /\ size ids_top 1 = Ok n /\ size ids_low 1 = Ok n
    /\ group_mean W (model a) ids_top = (Ok top_mean, tr3)
    /\ group_mean W (model a) ids_low = (Ok low_mean, tr4)
    /\ np_sub (act_prec W) (act_emax W) top_mean low_mean = Ok difference
    /\ v = (if String.eqb (PyStr.lower (data_type a)) "mfe"
            then np_neg difference else difference)
    /\ tr = ([EvEval] ++ tr1 ++ tr2 ++ [EvPrint "Computing steering vectors..."]
             ++ tr3 ++ tr4)%list.
Proof.
  unfold contrast_groups. split.
  - intros H.
    apply bind_ok in H as ([] & t0 & t0' & [= <-] & H & ->).
    apply bind_ok in H as (ids_top & tr1 & t1' & Htop & H & ->).
    apply bind_ok in H as (ids_low & tr2 & t2' & Hlow & H & ->).
    apply bind_ok in H as (n1 & ? & t3' & [Hn1 ->]%lift_ok & H & ->).
    apply bind_ok in H as (n2 & ? & t4' & [Hn2 ->]%lift_ok & H & ->).
    destruct (Nat.eqb_spec n1 n2) as [<-|Hne]; cbn [negb] in H; [|discriminate H].
    apply bind_ok in H as ([] & t5 & t5' & [= <-] & H & ->).
    apply bind_ok in H as (top_mean & tr3 & t6' & Hmt & H & ->).
    apply bind_ok in H as (low_mean & tr4 & t7' & Hml & H & ->).
    apply bind_ok in H as (difference & ? & t8' & [Hsub ->]%lift_ok & H & ->).
    injection H as <- <-.
    exists ids_top, tr1, ids_low, tr2, n1, top_mean, tr3, low_mean, tr4, difference.
    repeat split; try assumption. simpl. now rewrite !app_nil_r.
  - intros (ids_top & tr1 & ids_low & tr2 & n & top_mean & tr3 & low_mean & tr4
            & difference & Htop & Hlow & Hn1 & Hn2 & Hmt & Hml & Hsub & -> & ->).
    rewrite (bind_step (emit EvEval) _ tt [EvEval] eq_refl).
    rewrite (bind_step _ _ _ _ Htop), (bind_step _ _ _ _ Hlow).
    rewrite Hn1, Hn2, !bind_lift_ok, Nat.eqb_refl. cbn [negb].
    rewrite (bind_step (emit _) _ tt [EvPrint "Computing steering vectors..."] eq_refl).
    rewrite (bind_step _ _ _ _ Hmt), (bind_step _ _ _ _ Hml).
    rewrite Hsub, bind_lift_ok. cbn [ret fst snd]. now rewrite !app_nil_r.
Qed.

(** [mean] is the mean activation of the group [seqs]: the group is
    encoded and run through the network, and [mean] is what
    [group_mean] returns for it. *)
Definition group_activation (W : World) (a : FetchArgs) (seqs : list string) (mean : T4)
  : Prop :=
  exists ids tr tr',
    encode_sequences seqs (tokenizer a) 1024 = (Ok ids, tr)
    /\ group_mean W (model a) ids = (Ok mean, tr').

(** C2 (the code fails the claim): in 'mfe' mode the function never
    returns the negated difference, because it never returns: with a
    [percent] it stops with [UnboundLocalError] at the first read of the
    local [df] (line 57), without one with the [ValueError] of line 70,
    in both cases before anything has been selected or computed, so that
    the negation of line 112 is never carried out.  What the function does
    return (which it can in FASTA mode only) is the difference (mean
    high-group activations) - (mean low-group activations), not
    negated. *)
Theorem mfe_mode_returns_nothing (W : World) (a : FetchArgs) :
  (PyStr.lower (data_type a) = "mfe" ->
   exists e,
     fetch_steering_vector W a = (Raise e, [])
     /\ (percent a <> None -> e = UnboundLocalError "df")
     /\ (percent a = None ->
         e = ValueError "Must provide either 'percent' or 'cai_threshold' (only for 'cai')."))
  /\ (forall v tr,
        fetch_steering_vector W a = (Ok v, tr) ->
        PyStr.lower (data_type a) = "fasta"
        /\ exists top_seqs low_seqs top_mean low_mean,
             group_activation W a top_seqs top_mean
             /\ group_activation W a low_seqs low_mean
             /\ np_sub (act_prec W) (act_emax W) top_mean low_mean = Ok v).
Proof.
  split.
  - intros Hdt. unfold fetch_steering_vector, fetch_steering_vector_from, select_sequences.
    rewrite Hdt. destruct (percent a) as [p|]; eexists; (split; [reflexivity|]);
      split; congruence.
  - intros v tr H. pose proof (no_table_mode_returns W a v tr H) as Hdt.
    split; [exact Hdt|].
    unfold fetch_steering_vector, fetch_steering_vector_from in H.
    apply bind_ok in H as ([top low] & tr0 & tr' & _ & H & _).
    apply contrast_groups_ok in H
      as (ids_top & tr1 & ids_low & tr2 & n & top_mean & tr3 & low_mean & tr4
          & difference & Htop & Hlow & _ & _ & Hmt & Hml & Hsub & Hv & _).
    rewrite Hdt in Hv. cbn in Hv. subst v.
    exists top, low, top_mean, low_mean.
    split; [now exists ids_top, tr1, tr3|].
    split; [now exists ids_low, tr2, tr4 | exact Hsub].
Qed.

Lemma mfe_mode_returns_nothing_witness :
  fetch_steering_vector Demo.world Demo.mfe_call = (Raise (UnboundLocalError "df"), []).
Proof.
  destruct (proj1 (mfe_mode_returns_nothing Demo.world Demo.mfe_call) eq_refl)
    as (e & -> & He & _).
  now rewrite He.
Defined.

(** ** Swapping the two groups *)

(** Two floats are the same number: equal under IEEE comparison (so the
    two zeros are the same number), or both NaN. *)
Definition same_number (x y : spec_float) : bool :=
  match x, y with
  | S754_nan, S754_nan => true
  | _, _ => SFeqb x y
  end.

Definition same_array (x y : T4) : Prop :=
  Forall2 (Forall2 (Forall2 (Forall2 (fun u v => same_number u v = true)))) x y.

(** The call with the two FASTA paths exchanged. *)
Definition swap_paths (a : FetchArgs) : FetchArgs :=
  {| data_type := data_type a; model := model a; tokenizer := tokenizer a;
     device := device a; sequences := sequences a; percent := percent a;
     min_seq_len := min_seq_len a; max_seq_len := max_seq_len a;
     lambda_ := lambda_ a;
     high_fa_path := low_fa_path a; low_fa_path := high_fa_path a |}.

Lemma same_number_refl (x : spec_float) : same_number x x = true.
Proof.
  destruct x as [s|s| |s m e]; try destruct s; try reflexivity;
    unfold same_number, SFeqb, SFcompare;
    rewrite Z.compare_refl, Pos.compare_cont_refl; reflexivity.
Qed.

Section FloatSymmetry.
Variables prec emax : Z.

Lemma binary_round_aux_opp s m e l :
  SFopp (binary_round_aux prec emax s m e l) = binary_round_aux prec emax (negb s) m e l.
Proof.
  unfold binary_round_aux.
  destruct (shr_fexp prec emax m e l) as [mrs e'].
  destruct (shr_fexp prec emax _ e' loc_Exact) as [mrs' e''].
  destruct (shr_m mrs'); try reflexivity.
  destruct (e'' <=? emax - prec); reflexivity.
Qed.

Lemma binary_round_opp s m e :
  SFopp (binary_round prec emax s m e) = binary_round prec emax (negb s) m e.
Proof.
  unfold binary_round. destruct (shl_align _ _ _). apply binary_round_aux_opp.
Qed.

Lemma binary_normalize_opp z e :
  same_number (binary_normalize prec emax (- z) e false)
              (SFopp (binary_normalize prec emax z e false)) = true.
Proof.
  destruct z as [|p|p]; simpl.
  - reflexivity.
  - rewrite binary_round_opp. apply same_number_refl.
  - rewrite binary_round_opp. apply same_number_refl.
Qed.

(** Round-to-nearest is symmetric: [y - x] is the same number as
    [-(x - y)]. *)
Lemma SFsub_swap (x y : spec_float) :
  same_number (SFsub prec emax y x) (SFopp (SFsub prec emax x y)) = true.
Proof.
  destruct x as [sx|sx| |sx mx ex], y as [sy|sy| |sy my ey];
    try (destruct sx, sy; reflexivity);
    try (destruct sx; reflexivity);
    try (destruct sy; reflexivity);
    try reflexivity;
    try (cbn [SFsub SFopp]; rewrite ?negb_involutive; apply same_number_refl).
  cbn [SFsub]. rewrite (Z.min_comm ey ex).
  match goal with
  | |- same_number (binary_normalize _ _ (?b - ?c) _ _) _ = true =>
      replace (b - c) with (- (c - b)) by lia
  end.
  apply binary_normalize_opp.
Qed.
End FloatSymmetry.

(** [f], applied the other way round, succeeds as well, and the two
    results are related by [R]. *)
Definition swap_related {A B} (f : A -> A -> result B) (R : B -> B -> Prop) : Prop :=
  forall x y c, f x y = Ok c -> exists c', f y x = Ok c' /\ R c c'.

Lemma rmapM_related {A B} (g h : A -> result B) (R : B -> B -> Prop) (l : list A) :
  (forall z c, g z = Ok c -> exists c', h z = Ok c' /\ R c c') ->
  forall c, rmapM g l = Ok c -> exists c', rmapM h l = Ok c' /\ Forall2 R c c'.
Proof.
  intros Hgh. induction l as [|z l IH]; simpl; intros c H.
  - injection H as <-. exists []. split; [reflexivity | constructor].
  - destruct (g z) as [b|] eqn:Hg; simpl in H; [|discriminate].
    destruct (rmapM g l) as [bs|] eqn:Hgs; simpl in H; [|discriminate].
    injection H as <-.
    destruct (Hgh z b Hg) as (b' & -> & Hb).
    destruct (IH bs eq_refl) as (bs' & -> & Hbs).
    exists (b' :: bs'). split; [reflexivity | now constructor].
Qed.

Lemma rzip_with_swap {A B} (f : A -> A -> result B) (R : B -> B -> Prop) :
  swap_related f R -> swap_related (rzip_with f) (Forall2 R).
Proof.
  intros Hf l. induction l as [|x l IH]; intros [|y k] c H; simpl in *;
    try (injection H as <-; exists []; split; [reflexivity | constructor]).
  destruct (f x y) as [b|] eqn:Hb; simpl in H; [|discriminate].
  destruct (rzip_with f l k) as [bs|] eqn:Hbs; simpl in H; [|discriminate].
  injection H as <-.
  destruct (Hf x y b Hb) as (b' & -> & HR).
  destruct (IH k bs Hbs) as (bs' & -> & HRs).
  exists (b' :: bs'). split; [reflexivity | now constructor].
Qed.

Lemma broadcast_swap {A B} (f : A -> A -> result B) (R : B -> B -> Prop) :
  swap_related f R -> swap_related (broadcast f) (Forall2 R).
Proof.
  intros Hf l k c. unfold broadcast. rewrite (Nat.eqb_sym (length k) (length l)).
  destruct (length l =? length k)%nat eqn:E.
  - now apply rzip_with_swap.
  - destruct l as [|x [|x2 l]], k as [|y [|y2 k]];
      try discriminate E; try (intros H; discriminate H).
    + intros H. apply (rmapM_related _ (f y) R [] (fun z c => Hf z y c) c H).
    + intros H. apply (rmapM_related _ (fun z => f z x) R [] (fun z c => Hf x z c) c H).
    + intros H.
      apply (rmapM_related _ (fun z => f z x) R (y :: y2 :: k) (fun z c => Hf x z c) c H).
    + intros H.
      apply (rmapM_related _ (f y) R (x :: x2 :: l) (fun z c => Hf z y c) c H).
Qed.

Lemma Forall2_swap_map {A} (R S : A -> A -> Prop) (g : A -> A) :
  (forall c c', R c c' -> S c' (g c)) ->
  forall d d', Forall2 R d d' -> Forall2 S d' (map g d).
Proof.
  intros H d d' HR. induction HR; simpl; constructor; auto.
Qed.

(** Subtracting the other way round gives the negated array. *)
Lemma np_sub_swap prec emax (x y d : T4) :
  np_sub prec emax x y = Ok d ->
  exists d', np_sub prec emax y x = Ok d' /\ same_array d' (np_neg d).
Proof.
  intros H.
  assert (Hbase : swap_related (fun u v : spec_float => Ok (SFsub prec emax u v))
                               (fun c c' => same_number c' (SFopp c) = true)).
  { intros u v c [= <-]. eexists. split; [reflexivity|]. apply SFsub_swap. }
  destruct (broadcast_swap _ _ (broadcast_swap _ _ (broadcast_swap _ _
              (broadcast_swap _ _ Hbase))) x y d H) as (d' & Hd' & HR).
  exists d'. split; [exact Hd'|].
  unfold same_array, np_neg.
  revert HR. apply Forall2_swap_map. intros c1 c1'.
  apply Forall2_swap_map. intros c2 c2'.
  apply Forall2_swap_map. intros c3 c3'.
  apply Forall2_swap_map. auto.
Qed.

(** In FASTA mode the selection returns exactly when both paths are
    given, both files open and both iterators can be read to the end. *)
Lemma select_fasta_ok W df a top low tr0 :
  PyStr.lower (data_type a) = "fasta" ->
  select_sequences W df a = (Ok (top, low), tr0) <->
  exists high_path low_path,
    high_fa_path a = Some high_path /\ low_fa_path a = Some low_path
    /\ SeqIO_parse W high_path = Returns (Returns top)
    /\ SeqIO_parse W low_path = Returns (Returns low)
    /\ tr0 = [EvParse high_path; EvParse low_path; EvRecords; EvRecords].
Proof.
  intros Hdt. unfold select_sequences. rewrite Hdt. cbn [String.eqb Ascii.eqb Bool.eqb].
  split.
  - destruct (high_fa_path a) as [h|], (low_fa_path a) as [l|]; try discriminate.
    unfold extern.
    destruct (SeqIO_parse W h) as [[tops|w1]|w1] eqn:Hh; try discriminate;
      destruct (SeqIO_parse W l) as [[lows|w2]|w2] eqn:Hl; try discriminate.
    cbn. intros [= <- <- <-]. now exists h, l.
  - intros (h & l & -> & -> & Hh & Hl & ->). unfold extern. rewrite Hh, Hl. reflexivity.
Qed.

Lemma contrast_groups_swap_paths W a top low :
  contrast_groups W (swap_paths a) top low = contrast_groups W a top low.
Proof. reflexivity. Qed.

(** C3: in FASTA mode (which is never the 'mfe' mode), if the call
    returns a vector, the call with [high_fa_path] and [low_fa_path]
    exchanged returns one too, and it is the negation of the first, entry
    by entry (as numbers: a zero may differ in sign, and NaN goes with
    NaN). *)
Theorem swapping_fasta_files_negates (W : World) (a : FetchArgs) (v : T4) (tr : trace) :
  PyStr.lower (data_type a) = "fasta" ->
  fetch_steering_vector W a = (Ok v, tr) ->
  exists v' tr',
    fetch_steering_vector W (swap_paths a) = (Ok v', tr')
    /\ same_array v' (np_neg v).
Proof.
  intros Hdt H. unfold fetch_steering_vector, fetch_steering_vector_from in *.
  apply bind_ok in H as ([top low] & tr0 & tr1 & Hsel & Hcon & _).
  apply (select_fasta_ok W None a top low tr0 Hdt) in Hsel
    as (h & l & Hh & Hl & Hph & Hpl & _).
  assert (Hsel' : select_sequences W None (swap_paths a)
                  = (Ok (low, top), [EvParse l; EvParse h; EvRecords; EvRecords])).
  { apply (select_fasta_ok W None (swap_paths a)); [exact Hdt|].
    exists l, h. cbn [swap_paths high_fa_path low_fa_path]. auto. }
  rewrite (bind_step _ _ _ _ Hsel'). rewrite contrast_groups_swap_paths.
  apply contrast_groups_ok in Hcon
    as (ids_top & t1 & ids_low & t2 & n & top_mean & t3 & low_mean & t4
        & d & Htop & Hlow & Hn1 & Hn2 & Hmt & Hml & Hsub & Hv & _).
  rewrite Hdt in Hv. cbn in Hv. subst v.
  destruct (np_sub_swap _ _ _ _ _ Hsub) as (d' & Hsub' & Hneg).
  assert (Hcon' : contrast_groups W a low top
                  = (Ok d', ([EvEval] ++ t2 ++ t1
                             ++ [EvPrint "Computing steering vectors..."] ++ t4 ++ t3)%list)).
  { apply contrast_groups_ok.
    exists ids_low, t2, ids_top, t1, n, low_mean, t4, top_mean, t3, d'.
    rewrite Hdt. cbn. repeat split; assumption. }
  rewrite Hcon'. cbn [fst snd]. eexists _, _. split; [reflexivity | exact Hneg].
Qed.

Lemma swapping_fasta_files_negates_witness :
  exists v v',
    fst (fetch_steering_vector Demo.world (Demo.fasta_call "fasta")) = Ok v
    /\ fst (fetch_steering_vector Demo.world (swap_paths (Demo.fasta_call "fasta"))) = Ok v'
    /\ same_array v' (np_neg v).
Proof.
  destruct (returned_value _ demo_fasta_returned) as (v & tr & E).
  destruct (swapping_fasta_files_negates Demo.world (Demo.fasta_call "fasta") v tr
              eq_refl E) as (v' & tr' & E' & Hneg).
  exists v, v'. rewrite E, E'. auto.
Defined.

(** ** Shapes *)

Definition rect2 (r c : nat) (m : T2) : Prop :=
  length m = r /\ Forall (fun row => length row = c) m.

Definition rect3 (b r c : nat) (t : T3) : Prop :=
  length t = b /\ Forall (rect2 r c) t.

Definition rect4 (l b r c : nat) (t : T4) : Prop :=
  length t = l /\ Forall (rect3 b r c) t.

Lemma shape2_rect r c m : rect2 r c m -> (1 <= r)%nat -> shape2 m = [r; c].
Proof.
  intros [Hlen Hrows] Hr. unfold shape2. destruct m as [|row m]; simpl in *; [lia|].
  inversion Hrows; subst. reflexivity.
Qed.

Lemma shape3_rect b r c t :
  rect3 b r c t -> (1 <= b)%nat -> (1 <= r)%nat -> shape3 t = [b; r; c].
Proof.
  intros [Hlen Hmats] Hb Hr. unfold shape3. destruct t as [|m t]; simpl in *; [lia|].
  inversion Hmats; subst. now rewrite (shape2_rect r c m).
Qed.

Lemma shape4_rect l b r c t :
  rect4 l b r c t -> (1 <= l)%nat -> (1 <= b)%nat -> (1 <= r)%nat ->
  shape4 t = [l; b; r; c].
Proof.
  intros [Hlen Hts] Hl Hb Hr. unfold shape4. destruct t as [|u t]; simpl in *; [lia|].
  inversion Hts; subst. now rewrite (shape3_rect b r c u).
Qed.

Lemma torch_stack_rect b r c (ts : list T3) :
  ts <> [] -> Forall (rect3 b r c) ts -> (1 <= b)%nat -> (1 <= r)%nat ->
  torch_stack ts = Ok ts.
Proof.
  intros Hne Hts Hb Hr. unfold torch_stack. destruct ts as [|t rest]; [congruence|].
  inversion Hts as [|? ? Ht Hrest]; subst.
  replace (forallb _ rest) with true; [reflexivity|].
  symmetry. apply forallb_forall. intros u Hu. apply bool_decide_eq_true.
  rewrite List.Forall_forall in Hrest.
  now rewrite (shape3_rect b r c u), (shape3_rect b r c t) by auto.
Qed.

Lemma zip_app_rect b1 b2 r c (x y : T4) :
  Forall (rect3 b1 r c) x -> Forall (rect3 b2 r c) y ->
  Forall (rect3 (b1 + b2) r c) (zip_with (fun u w => (u ++ w)%list) x y).
Proof.
  intros Hx. revert y. induction Hx as [|u x [Hu1 Hu2] Hx IH]; intros y Hy; simpl.
  - constructor.
  - destruct Hy as [|w y [Hw1 Hw2] Hy]; constructor.
    + split; [rewrite length_app; lia | now apply Forall_app].
    + now apply IH.
Qed.

Lemma cat2_dim1_rect l b1 b2 r c (x y : T4) :
  rect4 l b1 r c x -> rect4 l b2 r c y ->
  (1 <= l)%nat -> (1 <= b1)%nat -> (1 <= b2)%nat -> (1 <= r)%nat ->
  exists z, cat2_dim1 x y = Ok z /\ rect4 l (b1 + b2) r c z.
Proof.
  intros Hx Hy Hl Hb1 Hb2 Hr. unfold cat2_dim1.
  rewrite (shape4_rect _ _ _ _ _ Hx), (shape4_rect _ _ _ _ _ Hy) by assumption.
  destruct Hx as [Hlx Hx], Hy as [Hly Hy].
  rewrite bool_decide_eq_true_2 by (split; [congruence | reflexivity]).
  eexists. split; [reflexivity|]. split.
  - unfold T4, T3, T2, T1 in *. rewrite length_zip_with. lia.
  - now apply zip_app_rect.
Qed.

Lemma torch_cat_dim1_rect l r c (chunks : list T4) :
  chunks <> [] ->
  Forall (fun ch => exists b, (1 <= b)%nat /\ rect4 l b r c ch) chunks ->
  (1 <= l)%nat -> (1 <= r)%nat ->
  exists t b, torch_cat_dim1 chunks = Ok t /\ (1 <= b)%nat /\ rect4 l b r c t.
Proof.
  intros Hne Hch Hl Hr. unfold torch_cat_dim1.
  destruct chunks as [|t rest]; [congruence|].
  inversion Hch as [|? ? (b & Hb & Ht) Hrest]; subst. clear Hch Hne.
  revert t b Hb Ht. induction Hrest as [|u rest (b2 & Hb2 & Hu) Hrest IH];
    intros t b Hb Ht; simpl.
  - now exists t, b.
  - destruct (cat2_dim1_rect l b b2 r c t u Ht Hu) as (z & -> & Hz); try assumption.
    apply (IH z (b + b2)%nat); [lia | exact Hz].
Qed.

Lemma imap_Forall {A B} (Q : A -> Prop) (P : B -> Prop) (f : nat -> A -> B) (l : list A) :
  Forall Q l -> (forall i x, Q x -> P (f i x)) -> Forall P (imap f l).
Proof.
  intros Hl. revert f. induction Hl as [|x l Hx Hl IH]; intros f Hf; simpl.
  - constructor.
  - constructor; [now apply Hf|]. apply IH. intros i y. apply Hf.
Qed.

Lemma mean_over_rect np b r c (layer : T3) :
  rect3 b r c layer -> (1 <= b)%nat -> rect2 r c (mean_over np layer).
Proof.
  intros [Hlen Hmats] Hb. unfold mean_over.
  destruct layer as [|x rest]; simpl in Hlen; [lia|].
  inversion Hmats as [|? ? [Hx1 Hx2] _]; subst. split.
  - now rewrite length_imap.
  - apply (imap_Forall (fun row => length row = c)); [exact Hx2|].
    intros i row Hrow. now rewrite length_imap.
Qed.

Lemma mean_axis1_rect np l b r c (t : T4) :
  rect4 l b r c t -> (1 <= b)%nat -> rect4 l 1 r c (mean_axis1 np t).
Proof.
  intros [Hlen Hlayers] Hb. unfold mean_axis1. split.
  - now rewrite length_map.
  - apply List.Forall_map. eapply Forall_impl; [exact Hlayers|].
    intros layer Hlayer. split; [reflexivity|].
    constructor; [|constructor]. now apply (mean_over_rect np b).
Qed.

Lemma rzip_with_total {A B C} (f : A -> B -> result C)
    (P : A -> Prop) (P' : B -> Prop) (Q : C -> Prop) (l : list A) (k : list B) :
  length l = length k -> Forall P l -> Forall P' k ->
  (forall x y, P x -> P' y -> exists z, f x y = Ok z /\ Q z) ->
  exists c, rzip_with f l k = Ok c /\ length c = length l /\ Forall Q c.
Proof.
  intros Hlen Hl. revert k Hlen.
  induction Hl as [|x l Hx Hl IH]; intros [|y k] Hlen Hk Hf; simpl in *; try discriminate.
  - exists []. repeat split; constructor.
  - inversion Hk as [|? ? Hy Hk']; subst.
    destruct (Hf x y Hx Hy) as (z & -> & Hz).
    destruct (IH k ltac:(lia) Hk' Hf) as (zs & -> & Hzs & HQ).
    exists (z :: zs). simpl. repeat split; [lia | now constructor].
Qed.

Lemma broadcast_total {A B C} (f : A -> B -> result C)
    (P : A -> Prop) (P' : B -> Prop) (Q : C -> Prop) (l : list A) (k : list B) :
  length l = length k -> Forall P l -> Forall P' k ->
  (forall x y, P x -> P' y -> exists z, f x y = Ok z /\ Q z) ->
  exists c, broadcast f l k = Ok c /\ length c = length l /\ Forall Q c.
Proof.
  intros Hlen. unfold broadcast.
  replace (length l =? length k)%nat with true by (symmetry; now apply Nat.eqb_eq).
  now apply rzip_with_total.
Qed.

Lemma np_sub_rect prec emax l b r c (x y : T4) :
  rect4 l b r c x -> rect4 l b r c y ->
  exists d, np_sub prec emax x y = Ok d /\ rect4 l b r c d.
Proof.
  intros [Hx1 Hx2] [Hy1 Hy2]. unfold np_sub.
  destruct (broadcast_total
              (broadcast (broadcast (broadcast
                 (fun u v : spec_float => Ok (SFsub prec emax u v)))))
              (rect3 b r c) (rect3 b r c) (rect3 b r c) x y) as (d & Hd & Hlen & HQ);
    try assumption; [(unfold T4, T3, T2, T1 in *; congruence)| |].
  - intros x3 y3 [Hx31 Hx32] [Hy31 Hy32].
    destruct (broadcast_total
                (broadcast (broadcast (fun u v : spec_float => Ok (SFsub prec emax u v))))
                (rect2 r c) (rect2 r c) (rect2 r c) x3 y3) as (d3 & Hd3 & Hlen3 & HQ3);
      try assumption; [(unfold T4, T3, T2, T1 in *; congruence)| |].
    + intros x2 y2 [Hx21 Hx22] [Hy21 Hy22].
      destruct (broadcast_total
                  (broadcast (fun u v : spec_float => Ok (SFsub prec emax u v)))
                  (fun row => length row = c) (fun row => length row = c)
                  (fun row => length row = c) x2 y2) as (d2 & Hd2 & Hlen2 & HQ2);
        try assumption; [(unfold T4, T3, T2, T1 in *; congruence)| |].
      * intros x1 y1 Hx1' Hy1'.
        destruct (broadcast_total (fun u v : spec_float => Ok (SFsub prec emax u v))
                    (fun _ => True) (fun _ => True) (fun _ => True) x1 y1)
          as (d1 & Hd1 & Hlen1 & _);
          [(unfold T4, T3, T2, T1 in *; congruence) | now apply Forall_true | now apply Forall_true | eauto |].
        exists d1. split; [exact Hd1 | (unfold T4, T3, T2, T1 in *; congruence)].
      * exists d2. split; [exact Hd2|]. split; [(unfold T4, T3, T2, T1 in *; congruence) | exact HQ2].
    + exists d3. split; [exact Hd3|]. split; [(unfold T4, T3, T2, T1 in *; congruence) | exact HQ3].
  - exists d. split; [exact Hd|]. split; [(unfold T4, T3, T2, T1 in *; congruence) | exact HQ].
Qed.

(** What the network promises: for a batch of [b] rows of [T] token ids
    it returns [depth + 1] hidden states (the embedding output and one per
    encoder layer), each of shape (b, T, E). *)
Definition encoder_of_depth (m : Model) (depth E : nat) : Prop :=
  forall ids b T,
    dims ids = [b; T] -> length (rows ids) = b ->
    Forall (fun row => length row = T) (rows ids) -> (1 <= b)%nat ->
    exists hidden_states,
      m ids = Returns hidden_states
      /\ length hidden_states = S depth
      /\ Forall (rect3 b T E) hidden_states.

(** The tokenizer returns for every non-empty batch of texts. *)
Definition tokenizes_nonempty (tok : Tokenizer) : Prop :=
  forall texts n, texts <> [] -> exists ids, tok texts PadMaxLength true n = Returns ids.

Lemma py_range_bound n step i :
  (1 <= step)%nat -> In i (py_range n step) -> (i < n)%nat.
Proof.
  intros Hstep Hin. unfold py_range in Hin.
  apply in_map_iff in Hin as (k & <- & Hk). apply in_seq in Hk.
  pose proof (Nat.Div0.mul_div_le (n + step - 1) step). nia.
Qed.

Lemma py_range_nonempty n step :
  (1 <= n)%nat -> (1 <= step)%nat -> py_range n step <> [].
Proof.
  intros Hn Hstep H. apply (f_equal (@length nat)) in H.
  unfold py_range in H. rewrite length_map, length_seq in H. cbn [length] in H.
  assert (0 < (n + step - 1) / step)%nat by (apply Nat.div_str_pos; lia). lia.
Qed.

Lemma mapM_total {A B} (f : A -> M B) (Q : B -> Prop) (l : list A) :
  (forall x, In x l -> exists y tr, f x = (Ok y, tr) /\ Q y) ->
  exists ys tr, mapM f l = (Ok ys, tr) /\ Forall Q ys /\ length ys = length l.
Proof.
  induction l as [|x l IH]; intros Hf; simpl.
  - exists [], []. repeat split. constructor.
  - destruct (Hf x (or_introl eq_refl)) as (y & tr & Hy & HQ).
    destruct (IH (fun z Hz => Hf z (or_intror Hz))) as (ys & tr' & Hys & HQs & Hlen).
    rewrite (bind_step _ _ _ _ Hy), (bind_step _ _ _ _ Hys). simpl.
    eexists _, _. split; [reflexivity|]. split; [now constructor | simpl; lia].
Qed.

(** One batch: the slice, the forward pass, the stack of the encoder
    layers. *)
Lemma batch_rect (m : Model) depth E ids n T i :
  encoder_of_depth m depth E -> (1 <= depth)%nat ->
  dims ids = [n; T] -> length (rows ids) = n ->
  Forall (fun row => length row = T) (rows ids) -> (1 <= T)%nat -> (i < n)%nat ->
  exists chunk tr,
    (let* batch := lift (slice_rows ids i 32) in
     let* hidden_states := extern (EvForward (length (rows batch))) (m batch) in
     lift (torch_stack (tail hidden_states))) = (Ok chunk, tr)
    /\ exists b, (1 <= b)%nat /\ rect4 depth b T E chunk.
Proof.
  intros Hm Hdepth Hdims Hlen Hrows HT Hi.
  unfold slice_rows. rewrite Hdims, bind_lift_ok. cbn [rows].
  set (b := Nat.min 32 (n - i)).
  destruct (Hm {| dims := [b; T]; rows := firstn 32 (skipn i (rows ids)) |} b T)
    as (hs & Hhs & Hcount & Hshape); cbn [dims rows].
  - reflexivity.
  - rewrite length_firstn, length_skipn, Hlen. reflexivity.
  - now apply Forall_take, Forall_drop.
  - unfold b. lia.
  - unfold extern. rewrite Hhs. cbn [of_answer].
    destruct hs as [|embedding layers]; [discriminate Hcount|].
    cbn [tail]. inversion Hshape as [|? ? _ Hlayers]; subst.
    assert (Hne : layers <> []) by (destruct layers; simpl in Hcount; [lia | discriminate]).
    rewrite (bind_step _ (fun hidden_states => lift (torch_stack (tail hidden_states)))
               (embedding :: layers) [EvForward _] eq_refl).
    cbn [tail]. rewrite (torch_stack_rect b T E layers Hne Hlayers) by (unfold b; lia).
    eexists _, _. split; [reflexivity|].
    exists b. split; [unfold b; lia|]. split; [simpl in Hcount; lia | exact Hlayers].
Qed.

Lemma group_mean_rect W (m : Model) depth E ids n T :
  encoder_of_depth m depth E -> (1 <= depth)%nat ->
  dims ids = [n; T] -> length (rows ids) = n ->
  Forall (fun row => length row = T) (rows ids) -> (1 <= n)%nat -> (1 <= T)%nat ->
  exists t tr, group_mean W m ids = (Ok t, tr) /\ rect4 depth 1 T E t.
Proof.
  intros Hm Hdepth Hdims Hlen Hrows Hn HT. unfold group_mean.
  unfold size at 1. rewrite Hdims. cbn [nth_error]. rewrite bind_lift_ok.
  destruct (mapM_total
              (fun i =>
                 let* batch := lift (slice_rows ids i 32) in
                 let* hidden_states := extern (EvForward (length (rows batch))) (m batch) in
                 lift (torch_stack (tail hidden_states)))
              (fun chunk => exists b, (1 <= b)%nat /\ rect4 depth b T E chunk)
              (py_range n 32)) as (chunks & tr & Hchunks & Hshapes & Hcount).
  { intros i Hi. apply py_range_bound in Hi; [|lia].
    now apply (batch_rect m depth E ids n T i). }
  rewrite (bind_step _ _ _ _ Hchunks).
  assert (Hne : chunks <> []).
  { intros ->. simpl in Hcount. symmetry in Hcount. apply length_zero_iff_nil in Hcount.
    exact (py_range_nonempty n 32 Hn ltac:(lia) Hcount). }
  destruct (torch_cat_dim1_rect depth T E chunks Hne Hshapes Hdepth HT)
    as (t & b & -> & Hb & Ht).
  rewrite bind_lift_ok. cbn [ret fst snd].
  eexists _, _. split; [reflexivity|]. now apply (mean_axis1_rect _ depth b).
Qed.

(** *** The embedding output plays no part *)

Definition drop_embedding (x : answer (list T3)) : answer (list T3) :=
  match x with
  | Returns hidden_states => Returns (tail hidden_states)
  | Throws what => Throws what
  end.

Lemma bind_ext {A B} (m : M A) (f g : A -> M B) :
  (forall x, f x = g x) -> bind m f = bind m g.
Proof.
  intros H. unfold bind. destruct m as [[x|e] tr]; [now rewrite H | reflexivity].
Qed.

Lemma mapM_ext {A B} (f g : A -> M B) (l : list A) :
  (forall x, f x = g x) -> mapM f l = mapM g l.
Proof.
  intros H. induction l as [|x l IH]; simpl; [reflexivity|]. now rewrite H, IH.
Qed.

Lemma group_mean_ignores_embedding W (m m' : Model) ids :
  (forall batch, drop_embedding (m batch) = drop_embedding (m' batch)) ->
  group_mean W m ids = group_mean W m' ids.
Proof.
  intros H. unfold group_mean. apply bind_ext. intros n. f_equal.
  apply mapM_ext. intros i. apply bind_ext. intros batch.
  specialize (H batch). unfold extern, bind.
  destruct (m batch) as [hs|w], (m' batch) as [hs'|w']; simpl in *;
    try discriminate H; injection H as H; now rewrite H.
Qed.

(** *** The demo network and tokenizer keep their promises *)

Lemma demo_model_depth : encoder_of_depth Demo.toy_model Demo.depth Demo.embedding_size.
Proof.
  intros ids b T _ Hlen Hrows _. eexists. split; [reflexivity|]. split.
  - now rewrite length_map, length_seq.
  - apply List.Forall_map, Forall_true. intros l. unfold Demo.hidden_state. split.
    + now rewrite length_map.
    + apply List.Forall_map. eapply Forall_impl; [exact Hrows|].
      intros row Hrow. split; [now rewrite length_map|].
      apply List.Forall_map, Forall_true. reflexivity.
Qed.

Lemma demo_tokenizer_total : tokenizes_nonempty Demo.toy_tokenizer.
Proof.
  intros [|text texts] n Hne; [congruence|]. eexists. reflexivity.
Qed.

(** With both files given and non-empty, and a tokenizer that accepts
    every non-empty batch, the FASTA call returns. *)
Lemma fasta_call_returns (W : World) (a : FetchArgs) (depth E : nat)
    (high low : string) (tops lows : list string) :
  pads_to_max_length (tokenizer a) -> tokenizes_nonempty (tokenizer a) ->
  encoder_of_depth (model a) depth E -> (1 <= depth)%nat ->
  PyStr.lower (data_type a) = "fasta" ->
  high_fa_path a = Some high -> low_fa_path a = Some low ->
  SeqIO_parse W high = Returns (Returns tops) ->
  SeqIO_parse W low = Returns (Returns lows) ->
  tops <> [] -> lows <> [] ->
  exists v tr,
    fetch_steering_vector W a = (Ok v, tr)
    /\ rect4 depth 1 1024 E v
    /\ shape4 v = [depth; 1%nat; 1024%nat; E].
Proof.
  intros Hpad Htok Hmodel Hdepth Hdt Hhigh Hlow Hph Hpl Htops Hlows.
  assert (Hsel : select_sequences W None a
                 = (Ok (tops, lows), [EvParse high; EvParse low; EvRecords; EvRecords])).
  { apply (select_fasta_ok W None a); [exact Hdt|]. now exists high, low. }
  assert (Henc : forall seqs, seqs <> [] ->
            exists ids tr, encode_sequences seqs (tokenizer a) 1024 = (Ok ids, tr)
              /\ dims ids = [length seqs; 1024%nat]
              /\ length (rows ids) = length seqs
              /\ Forall (fun row => length row = 1024%nat) (rows ids)).
  { intros seqs Hne.
    destruct (Htok (kmer_texts seqs) 1024%nat) as (ids & Hids).
    { unfold kmer_texts. destruct seqs; [congruence | discriminate]. }
    assert (E1 : encode_sequences seqs (tokenizer a) 1024
                 = (Ok ids, [EvTokenize (kmer_texts seqs)])).
    { unfold encode_sequences, extern. fold (kmer_texts seqs). now rewrite Hids. }
    exists ids, [EvTokenize (kmer_texts seqs)]. split; [exact E1|].
    exact (encode_padded _ _ _ _ _ Hpad E1). }
  destruct (Henc tops Htops) as (ids_top & t1 & Etop & Dtop & Ltop & Rtop).
  destruct (Henc lows Hlows) as (ids_low & t2 & Elow & Dlow & Llow & Rlow).
  assert (Hn : forall seqs : list string, seqs <> [] -> (1 <= length seqs)%nat)
    by (intros [|] ?; [congruence | simpl; lia]).
  destruct (group_mean_rect W (model a) depth E ids_top _ 1024 Hmodel Hdepth Dtop Ltop Rtop)
    as (top_mean & t3 & Emt & Smt); [auto | lia |].
  destruct (group_mean_rect W (model a) depth E ids_low _ 1024 Hmodel Hdepth Dlow Llow Rlow)
    as (low_mean & t4 & Eml & Sml); [auto | lia |].
  destruct (np_sub_rect (act_prec W) (act_emax W) _ _ _ _ _ _ Smt Sml) as (d & Hsub & Sd).
  exists d. eexists. split; [|split; [exact Sd | apply shape4_rect; (exact Sd || lia)]].
  unfold fetch_steering_vector, fetch_steering_vector_from.
  rewrite (bind_step _ _ _ _ Hsel).
  assert (Hcon : contrast_groups W a tops lows
                 = (Ok d, ([EvEval] ++ t1 ++ t2
                           ++ [EvPrint "Computing steering vectors..."] ++ t3 ++ t4)%list)).
  { apply contrast_groups_ok.
    exists ids_top, t1, ids_low, t2, 1024%nat, top_mean, t3, low_mean, t4, d.
    unfold size. rewrite Dtop, Dlow, Hdt. cbn. repeat split; assumption. }
  rewrite Hcon. reflexivity.
Qed.


(** An empty group has no batches, and [torch.cat] refuses an empty list. *)
Lemma group_mean_empty W (m : Model) ids T :
  dims ids = [0%nat; T] -> fst (group_mean W m ids) = Raise
    (External "torch.cat(): expected a non-empty list of Tensors").
Proof.
  intros Hdims. unfold group_mean, size. rewrite Hdims. reflexivity.
Qed.

(** So a call whose high group is empty returns no vector, whatever the
    mode. *)
Lemma empty_group_no_vector W df a low tr0 :
  pads_to_max_length (tokenizer a) ->
  select_sequences W df a = (Ok ([], low), tr0) ->
  returned (fetch_steering_vector_from W df a) = false.
Proof.
  intros Hpad Hsel. unfold fetch_steering_vector_from. rewrite (bind_step _ _ _ _ Hsel).
  destruct (contrast_groups W a [] low) as [[v|e] tr] eqn:Hcon; [|reflexivity].
  apply contrast_groups_ok in Hcon
    as (ids_top & t1 & ids_low & t2 & n & top_mean & t3 & low_mean & t4
        & d & Etop & _ & _ & _ & Emt & _).
  destruct (encode_padded _ _ _ _ _ Hpad Etop) as (Hdims & _).
  apply (group_mean_empty W (model a)) in Hdims. rewrite Emt in Hdims. discriminate Hdims.
Qed.

(** Whatever a FASTA call returns has the shape (depth, 1, 1024, E). *)
Lemma fasta_shape_if_returned (W : World) (a : FetchArgs) (depth E : nat) v tr :
  pads_to_max_length (tokenizer a) ->
  encoder_of_depth (model a) depth E -> (1 <= depth)%nat ->
  PyStr.lower (data_type a) = "fasta" ->
  fetch_steering_vector W a = (Ok v, tr) ->
  rect4 depth 1 1024 E v /\ shape4 v = [depth; 1%nat; 1024%nat; E].
Proof.
  intros Hpad Hmodel Hdepth Hdt H.
  unfold fetch_steering_vector, fetch_steering_vector_from in H.
  apply bind_ok in H as ([tops lows] & tr0 & tr1 & _ & Hcon & _).
  apply contrast_groups_ok in Hcon
    as (ids_top & t1 & ids_low & t2 & n & top_mean & t3 & low_mean & t4
        & d & Etop & Elow & _ & _ & Emt & Eml & Hsub & Hv & _).
  rewrite Hdt in Hv. cbn in Hv. subst v.
  assert (Hmean : forall seqs ids t mean t',
            encode_sequences seqs (tokenizer a) 1024 = (Ok ids, t) ->
            group_mean W (model a) ids = (Ok mean, t') ->
            rect4 depth 1 1024 E mean).
  { intros seqs ids t mean t' Eenc Emean.
    destruct (encode_padded _ _ _ _ _ Hpad Eenc) as (Hdims & Hlen & Hrows).
    destruct seqs as [|s seqs].
    - apply (group_mean_empty W (model a)) in Hdims. rewrite Emean in Hdims.
      discriminate Hdims.
    - destruct (group_mean_rect W (model a) depth E ids _ 1024
                  Hmodel Hdepth Hdims Hlen Hrows) as (mean' & t'' & Emean' & Hshape);
        [simpl; lia | lia |].
      rewrite Emean in Emean'. now injection Emean' as -> _. }
  pose proof (Hmean _ _ _ _ _ Etop Emt) as Smt.
  pose proof (Hmean _ _ _ _ _ Elow Eml) as Sml.
  destruct (np_sub_rect (act_prec W) (act_emax W) _ _ _ _ _ _ Smt Sml) as (d' & Hsub' & Sd).
  rewrite Hsub in Hsub'. injection Hsub' as <-.
  split; [exact Sd | apply shape4_rect; (exact Sd || lia)].
Qed.

(** C1: in FASTA mode, with a tokenizer that pads to the fixed length and
    a network of [depth] encoder layers and embedding size [E], every
    array the call returns has shape (depth, 1, 1024, E): the network
    hands back [depth + 1] hidden states, the first is dropped, the rest
    are stacked and averaged over the sequences.  The call does return
    when both files are given and non-empty and the tokenizer accepts
    them; and what the first hidden state contains has no influence on
    the means. *)
Theorem fasta_output_shape (W : World) (a : FetchArgs) (depth E : nat) :
  pads_to_max_length (tokenizer a) ->
  encoder_of_depth (model a) depth E -> (1 <= depth)%nat ->
  PyStr.lower (data_type a) = "fasta" ->
  (forall v tr,
     fetch_steering_vector W a = (Ok v, tr) ->
     rect4 depth 1 1024 E v /\ shape4 v = [depth; 1%nat; 1024%nat; E])
  /\ (tokenizes_nonempty (tokenizer a) ->
      forall high low tops lows,
        high_fa_path a = Some high -> low_fa_path a = Some low ->
        SeqIO_parse W high = Returns (Returns tops) ->
        SeqIO_parse W low = Returns (Returns lows) ->
        tops <> [] -> lows <> [] ->
        exists v tr, fetch_steering_vector W a = (Ok v, tr))
  /\ (forall m' ids,
        (forall batch, drop_embedding (m' batch) = drop_embedding (model a batch)) ->
        group_mean W m' ids = group_mean W (model a) ids).
Proof.
  intros Hpad Hmodel Hdepth Hdt. split; [|split].
  - intros v tr. now apply fasta_shape_if_returned.
  - intros Htok high low tops lows Hhigh Hlow Hph Hpl Htops Hlows.
    destruct (fasta_call_returns W a depth E high low tops lows) as (v & tr & H & _);
      try assumption.
    now exists v, tr.
  - intros m' ids H. now apply group_mean_ignores_embedding.
Qed.

Lemma fasta_output_shape_witness :
  exists v tr,
    fetch_steering_vector Demo.world (Demo.fasta_call "fasta") = (Ok v, tr)
    /\ rect4 2 1 1024 2 v
    /\ shape4 v = [2%nat; 1%nat; 1024%nat; 2%nat].
Proof.
  destruct (fasta_output_shape Demo.world (Demo.fasta_call "fasta") 2 2
              demo_tokenizer_pads demo_model_depth ltac:(lia) eq_refl)
    as (Hshape & Hreturns & _).
  destruct (Hreturns demo_tokenizer_total "high.fa" "low.fa"
              ["ATGGCCGCC"; "ATGAAA"] ["ATGTTT"]
              eq_refl eq_refl eq_refl eq_refl ltac:(discriminate) ltac:(discriminate))
    as (v & tr & E).
  exists v, tr. split; [exact E|]. exact (Hshape v tr E).
Defined.

(** * Further properties of the code *)

(** ** Loading the sequences *)

(** The last record with identifier [k], if there is one. *)
Fixpoint last_with_id (k : string) (records : list SeqRecord) : option SeqRecord :=
  match records with
  | [] => None
  | r :: rest =>
      match last_with_id k rest with
      | Some later => Some later
      | None => if String.eqb (rec_id r) k then Some r else None
      end
  end.

Lemma fold_dict_setitem_lookup (records : list SeqRecord) (d : gmap string string) (k : string) :
  fold_left dict_setitem records d !! k
  = match last_with_id k records with
    | Some r => Some (rec_seq r)
    | None => d !! k
    end.
Proof.
  revert d. induction records as [|r records IH]; intros d.
  - reflexivity.
  - cbn [fold_left last_with_id]. rewrite IH.
    destruct (last_with_id k records) as [r'|]; [reflexivity|].
    unfold dict_setitem.
    destruct (String.eqb_spec (rec_id r) k) as [->|Hne].
    + now rewrite lookup_insert_eq.
    + now rewrite lookup_insert_ne.
Qed.

Lemma load_data_ok (F : Files) (data_path : string) (d : gmap string string) :
  load_data F data_path = Ok d <->
  exists fasta_file records,
    open F data_path = Returns fasta_file
    /\ SeqIO_parse_handle F fasta_file = Returns records
    /\ failure records = None
    /\ d = fold_left dict_setitem (yielded records) empty.
Proof.
  unfold load_data. split.
  - destruct (open F data_path) as [h|w] eqn:Ho; [|discriminate]. cbn [of_answer rbind].
    destruct (SeqIO_parse_handle F h) as [it|w] eqn:Hp; [|discriminate]. cbn [of_answer rbind].
    destruct (failure it) eqn:Hf; [discriminate|]. intros [= <-]. now exists h, it.
  - intros (h & it & -> & Hp & Hf & ->). cbn [of_answer rbind]. rewrite Hp. cbn [of_answer rbind].
    now rewrite Hf.
Qed.

(** X1: when [load_data] returns, the file has been opened and read to
    its end without an error, and the dictionary maps every identifier
    that occurs in the file to the sequence of the last record that
    carries it: a record whose identifier comes again later is
    overwritten.  Looking a key up as lines 57 and 65 do finds that
    sequence, and raises [KeyError] for an identifier that is not in the
    file. *)
Theorem load_data_last_record_wins (F : Files) (data_path : string)
    (d : gmap string string) :
  load_data F data_path = Ok d ->
  exists fasta_file records,
    open F data_path = Returns fasta_file
    /\ SeqIO_parse_handle F fasta_file = Returns records
    /\ failure records = None
    /\ (forall k, d !! k = option_map rec_seq (last_with_id k (yielded records)))
    /\ (forall k, dict_getitem (Some d) (CStr k)
                  = match last_with_id k (yielded records) with
                    | Some r => Ok (rec_seq r)
                    | None => Raise (KeyError k)
                    end).
Proof.
  intros H. apply load_data_ok in H as (h & it & Ho & Hp & Hf & ->).
  exists h, it. repeat split; try assumption.
  - intros k. rewrite fold_dict_setitem_lookup.
    destruct (last_with_id k (yielded it)); [reflexivity|]. apply lookup_empty.
  - intros k. cbn [dict_getitem]. rewrite fold_dict_setitem_lookup.
    destruct (last_with_id k (yielded it)); [reflexivity|]. now rewrite lookup_empty.
Qed.

Lemma load_data_last_record_wins_witness :
  exists d,
    load_data DemoFiles.files "repeated.fa" = Ok d
    /\ d !! "s1" = Some "ATGTTT"
    /\ dict_getitem (Some d) (CStr "s3") = Raise (KeyError "s3").
Proof.
  destruct (load_data DemoFiles.files "repeated.fa") as [d|e] eqn:E; [|discriminate E].
  exists d. split; [reflexivity|].
  destruct (load_data_last_record_wins _ _ _ E) as (h & it & Ho & Hp & _ & Hd & Hg).
  injection Ho as <-. injection Hp as <-.
  split; [exact (Hd "s1") | exact (Hg "s3")].
Defined.

Lemma fold_dict_setitem_size (records : list SeqRecord) (d : gmap string string) :
  (base.size (fold_left dict_setitem records d) <= base.size d + length records)%nat
  /\ (base.size (fold_left dict_setitem records d) = (base.size d + length records)%nat
      <-> List.NoDup (map rec_id records)
          /\ Forall (fun r => d !! rec_id r = None) records).
Proof.
  revert d. induction records as [|r records IH]; intros d.
  - cbn. split; [lia|]. split; [intros _; split; constructor | lia].
  - cbn [fold_left map length].
    destruct (IH (dict_setitem d r)) as (Hle & Heq). unfold dict_setitem in *.
    pose proof (map_size_insert (rec_id r) (rec_seq r) d) as Hsize.
    destruct (d !! rec_id r) as [old|] eqn:Hold; cbn in Hsize.
    + split; [lia|]. split.
      * intros H. lia.
      * intros (_ & Hfresh). inversion Hfresh as [|? ? Hr _]; subst. congruence.
    + split; [lia|]. rewrite List.NoDup_cons_iff. split.
      * intros H. assert (Heq' : base.size (fold_left (fun s rc => <[rec_id rc:=rec_seq rc]> s)
                                          records (<[rec_id r:=rec_seq r]> d))
                               = (base.size (<[rec_id r:=rec_seq r]> d) + length records)%nat)
          by (unfold dict_setitem in *; lia).
        apply Heq in Heq' as (Hnd & Hfresh).
        assert (Hboth : Forall (fun r' => rec_id r' <> rec_id r /\ d !! rec_id r' = None) records).
        { eapply Forall_impl; [exact Hfresh|]. intros r' Hr'. cbn in Hr'.
          destruct (String.eqb_spec (rec_id r) (rec_id r')) as [E|E].
          - rewrite E, lookup_insert_eq in Hr'. discriminate.
          - rewrite lookup_insert_ne in Hr' by exact E. split; [congruence | exact Hr']. }
        split; [split; [|exact Hnd]|].
        -- rewrite in_map_iff. intros (r' & E & Hin).
           rewrite List.Forall_forall in Hboth. destruct (Hboth r' Hin) as (Hne & _). congruence.
        -- constructor; [exact Hold|]. eapply Forall_impl; [exact Hboth|]. now intros r' (_ & ?).
      * intros ((Hnotin & Hnd) & Hfresh). inversion Hfresh as [|? ? _ Hrest]; subst.
        assert (base.size (fold_left (fun s rc => <[rec_id rc:=rec_seq rc]> s)
                                records (<[rec_id r:=rec_seq r]> d))
                = (base.size (<[rec_id r:=rec_seq r]> d) + length records)%nat) as Hgoal.
        { apply Heq. split; [exact Hnd|]. rewrite List.Forall_forall in Hrest |- *.
          intros r' Hin. rewrite lookup_insert_ne; [now apply Hrest|].
          intros E. apply Hnotin. rewrite E. now apply in_map. }
        unfold dict_setitem. lia.
Qed.

(** X2: the dictionary [load_data] returns never has more entries than
    the file has records; it has as many exactly when no identifier is
    repeated, and then every record is found under its identifier. *)
Theorem load_data_one_entry_per_identifier (F : Files) (data_path : string)
    (fasta_file : Handle F) (records : RecordIter) (d : gmap string string) :
  open F data_path = Returns fasta_file ->
  SeqIO_parse_handle F fasta_file = Returns records ->
  load_data F data_path = Ok d ->
  (base.size d <= length (yielded records))%nat
  /\ (base.size d = length (yielded records) <-> List.NoDup (map rec_id (yielded records)))
  /\ (List.NoDup (map rec_id (yielded records)) ->
      Forall (fun r => d !! rec_id r = Some (rec_seq r)) (yielded records)).
Proof.
  intros Ho Hp H. apply load_data_ok in H as (h & it & Ho' & Hp' & Hf & ->).
  rewrite Ho in Ho'. injection Ho' as <-. rewrite Hp in Hp'. injection Hp' as <-.
  destruct (fold_dict_setitem_size (yielded records) empty) as (Hle & Heq).
  rewrite map_size_empty in Hle, Heq. cbn [Nat.add] in Hle, Heq.
  split; [exact Hle|]. split.
  - rewrite Heq. split; [tauto|]. intros Hnd. split; [exact Hnd|].
    apply Forall_true. intros r. apply lookup_empty.
  - intros Hnd. rewrite List.Forall_forall. intros r Hin.
    rewrite fold_dict_setitem_lookup.
    assert (Hlast : forall rs, List.NoDup (map rec_id rs) -> In r rs ->
                      last_with_id (rec_id r) rs = Some r).
    { clear. induction rs as [|r0 rs IH]; intros Hnd Hin; [destruct Hin|].
      cbn [map] in Hnd. apply List.NoDup_cons_iff in Hnd as (Hnotin & Hnd).
      cbn [last_with_id]. destruct Hin as [->|Hin].
      - destruct (last_with_id (rec_id r) rs) as [later|] eqn:E.
        + exfalso. apply Hnotin. clear -E. induction rs as [|r1 rs IH]; [discriminate|].
          cbn [last_with_id] in E. cbn [map]. destruct (last_with_id (rec_id r) rs).
          * right. now apply IH.
          * destruct (String.eqb_spec (rec_id r1) (rec_id r)) as [E1|]; [|discriminate].
            left. exact E1.
        + now rewrite String.eqb_refl.
      - now rewrite (IH Hnd Hin). }
    now rewrite (Hlast _ Hnd Hin).
Qed.

Lemma load_data_one_entry_per_identifier_witness :
  (exists d, load_data DemoFiles.files "distinct.fa" = Ok d /\ base.size d = 2%nat)
  /\ (exists d, load_data DemoFiles.files "repeated.fa" = Ok d /\ (base.size d <= 3)%nat
                /\ base.size d <> 3%nat).
Proof.
  split.
  - destruct (load_data DemoFiles.files "distinct.fa") as [d|e] eqn:E; [|discriminate E].
    exists d. split; [reflexivity|].
    apply (proj1 (proj2 (load_data_one_entry_per_identifier DemoFiles.files "distinct.fa"
                           "distinct.fa" _ d eq_refl eq_refl E))).
    repeat constructor; cbn; intros H; repeat destruct H as [H|H]; discriminate H || exact H.
  - destruct (load_data DemoFiles.files "repeated.fa") as [d|e] eqn:E; [|discriminate E].
    exists d. split; [reflexivity|].
    destruct (load_data_one_entry_per_identifier DemoFiles.files "repeated.fa"
                "repeated.fa" _ d eq_refl eq_refl E) as (Hle & Hiff & _).
    split; [exact Hle|]. intros Hsize. apply Hiff in Hsize.
    cbn in Hsize. apply List.NoDup_cons_iff in Hsize as (Hnotin & _).
    apply Hnotin. right. left. reflexivity.
Defined.

(** ** Arguments the modes need and ignore *)

(** X3: in the modes 'mfe' and 'cai' a call without [percent] raises the
    [ValueError] of line 70 before any file, tokenizer or network is
    touched, whatever the slot of [df] holds. *)
Theorem score_modes_need_percent (W : World) (df : option DataFrame) (a : FetchArgs) :
  PyStr.lower (data_type a) = "mfe" \/ PyStr.lower (data_type a) = "cai" ->
  percent a = None ->
  fetch_steering_vector_from W df a
  = (Raise (ValueError "Must provide either 'percent' or 'cai_threshold' (only for 'cai')."),
     []).
Proof.
  intros Hdt Hp. unfold fetch_steering_vector_from, select_sequences.
  rewrite Hp. destruct Hdt as [-> | ->]; reflexivity.
Qed.

Lemma score_modes_need_percent_witness :
  fetch_steering_vector_from Demo.world None
    (positional "CAI" Demo.toy_model Demo.toy_tokenizer "cuda:0")
  = (Raise (ValueError "Must provide either 'percent' or 'cai_threshold' (only for 'cai')."),
     [])
  /\ fetch_steering_vector_from Demo.world (Some Demo.table)
       (positional "mfe" Demo.toy_model Demo.toy_tokenizer "cuda:0")
     = (Raise (ValueError "Must provide either 'percent' or 'cai_threshold' (only for 'cai')."),
        []).
Proof.
  split.
  - apply score_modes_need_percent; [right; reflexivity | reflexivity].
  - apply score_modes_need_percent; [left; reflexivity | reflexivity].
Defined.

(** X4: in FASTA mode the call depends on the network, the tokenizer,
    the device and the two paths only: two calls that agree on these have
    the same outcome and the same events, however the mode is
    capitalised and whatever [sequences], [percent], [min_seq_len],
    [max_seq_len] and [lambda_] are. *)
Theorem fasta_mode_reads_paths_only (W : World) (df df' : option DataFrame)
    (a b : FetchArgs) :
  PyStr.lower (data_type a) = "fasta" -> PyStr.lower (data_type b) = "fasta" ->
  model a = model b -> tokenizer a = tokenizer b -> device a = device b ->
  high_fa_path a = high_fa_path b -> low_fa_path a = low_fa_path b ->
  fetch_steering_vector_from W df a = fetch_steering_vector_from W df' b.
Proof.
  intros Ha Hb Hm Ht _ Hh Hl.
  unfold fetch_steering_vector_from, select_sequences, contrast_groups.
  rewrite Ha, Hb, Hm, Ht, Hh, Hl. cbn [String.eqb Ascii.eqb Bool.eqb].
  destruct (high_fa_path b) as [h|], (low_fa_path b) as [l|]; try reflexivity.
  unfold extern.
  destruct (SeqIO_parse W h) as [hi|w1]; [|reflexivity].
  destruct (SeqIO_parse W l) as [lo|w2]; reflexivity.
Qed.

Lemma fasta_mode_reads_paths_only_witness :
  fetch_steering_vector_from Demo.world None (Demo.fasta_call "fasta")
  = fetch_steering_vector_from Demo.world (Some Demo.table) DemoCalls.crowded_call.
Proof.
  apply fasta_mode_reads_paths_only; reflexivity.
Defined.

(** ** What a run never does *)

Lemma only_bind_ok {A B} P (m : M A) (k : A -> M B) :
  only P m -> (forall x tr, m = (Ok x, tr) -> only P (k x)) -> only P (bind m k).
Proof.
  unfold only, bind. intros Hm Hk. destruct m as [[x|e] tr]; simpl in *; [|exact Hm].
  specialize (Hk x tr eq_refl). destruct (k x) as [r tr']. simpl in *.
  apply Forall_app. now split.
Qed.

Lemma only_mapM {A B} P (f : A -> M B) (l : list A) :
  (forall x, only P (f x)) -> only P (mapM f l).
Proof.
  intros Hf. induction l as [|x l IH]; simpl; [apply only_ret|].
  apply only_bind; [apply Hf|]. intros y.
  apply only_bind; [exact IH|]. intros ys. apply only_ret.
Qed.

Lemma only_weaken {A} (P Q : event -> Prop) (m : M A) :
  (forall e, P e -> Q e) -> only P m -> only Q m.
Proof. intros H. unfold only. apply List.Forall_impl. exact H. Qed.

(** A forward pass takes at most [rows] sequences. *)
Definition at_most_rows (rows : nat) (e : event) : Prop :=
  match e with
  | EvForward n => (n <= rows)%nat
  | _ => True
  end.

Lemma group_mean_batches_bounded W (m : Model) (ids : IdTensor) :
  only (at_most_rows 32) (group_mean W m ids).
Proof.
  unfold group_mean.
  apply only_bind; [apply only_lift|]. intros n.
  apply only_bind; [|intros chunks; apply only_bind; [apply only_lift | intros ?; apply only_ret]].
  apply only_mapM. intros i.
  apply only_bind_ok; [apply only_lift|]. intros batch tr Hbatch.
  apply only_bind; [|intros ?; apply only_lift].
  apply only_extern. cbn.
  apply lift_ok in Hbatch as (Hbatch & _). unfold slice_rows in Hbatch.
  destruct (dims ids); [discriminate|]. injection Hbatch as <-. cbn [rows].
  rewrite length_firstn. lia.
Qed.

Lemma contrast_groups_bounded W a top low :
  only (at_most_rows 32) (contrast_groups W a top low).
Proof.
  unfold contrast_groups, encode_sequences.
  repeat first
    [ apply group_mean_batches_bounded
    | apply only_ret | apply only_raise | apply only_lift
    | apply only_emit; exact I
    | apply only_extern; exact I
    | apply only_bind; [|intros ?]
    | match goal with
      | |- only _ (if ?b then _ else _) => destruct b
      end ].
Qed.

(** The events of lines 72-114 start with [model.eval()]. *)
Lemma contrast_groups_starts_with_eval W a top low :
  exists rest, snd (contrast_groups W a top low) = EvEval :: rest.
Proof.
  unfold contrast_groups. unfold bind at 1. cbn [emit].
  match goal with |- context [let (r, tr') := ?m in _] => destruct m as [r tr'] end.
  now exists tr'.
Qed.

Lemma split_after_quiet {A} (P : A -> Prop) (x y : A) (quiet pre post rest : list A) :
  Forall (fun e => ~ P e) quiet -> P x ->
  (quiet ++ y :: rest = pre ++ x :: post)%list ->
  exists mid, pre = (quiet ++ y :: mid)%list \/ (pre = quiet /\ y = x).
Proof.
  revert pre. induction quiet as [|q quiet IH]; intros pre Hquiet Hx E.
  - destruct pre as [|p pre]; simpl in E.
    + injection E as -> _. exists []. right. now split.
    + injection E as <- _. exists pre. now left.
  - inversion Hquiet as [|? ? Hq Hrest]; subst.
    destruct pre as [|p pre]; simpl in E.
    + injection E as -> _. contradiction.
    + injection E as <- E. destruct (IH pre Hrest Hx E) as (mid & [-> | [-> ->]]).
      * exists mid. now left.
      * exists []. right. now split.
Qed.

(** X5: in every run of the body, whatever its outcome, a forward pass
    of the network comes after [model.eval()] (line 73) and takes at most
    32 sequences. *)
Theorem network_runs_in_eval_mode (W : World) (df : option DataFrame) (a : FetchArgs)
    (pre post : trace) (n : nat) :
  snd (fetch_steering_vector_from W df a) = (pre ++ EvForward n :: post)%list ->
  In EvEval pre /\ (n <= 32)%nat.
Proof.
  intros E. split.
  - pose proof (select_sequences_no_forward W df a) as Hquiet. unfold only in Hquiet.
    unfold fetch_steering_vector_from, bind in E.
    destruct (select_sequences W df a) as [[[top low]|e] tr0]; cbn [snd] in *.
    + destruct (contrast_groups_starts_with_eval W a top low) as (rest & Hrest).
      destruct (contrast_groups W a top low) as [r tr1]. cbn [snd] in *. subst tr1.
      destruct (split_after_quiet (fun e => is_forward e = true) (EvForward n) EvEval
                  tr0 pre post rest) as (mid & [-> | [_ Habs]]).
      * eapply List.Forall_impl; [|exact Hquiet]. intros e He. cbn in He. now rewrite He.
      * reflexivity.
      * exact E.
      * apply in_or_app. right. now left.
      * discriminate Habs.
    + rewrite E in Hquiet. apply Forall_app in Hquiet as (_ & Hquiet).
      inversion Hquiet as [|? ? Habs _]. discriminate Habs.
  - assert (H : only (at_most_rows 32) (fetch_steering_vector_from W df a)).
    { unfold fetch_steering_vector_from. apply only_bind.
      - eapply only_weaken; [|apply select_sequences_no_forward].
        intros [] He; try exact I. discriminate He.
      - intros [top low]. apply contrast_groups_bounded. }
    unfold only in H. rewrite E in H. apply Forall_app in H as (_ & H).
    now inversion H.
Qed.

Lemma network_runs_in_eval_mode_witness :
  exists pre post,
    snd (fetch_steering_vector_from Demo.world None (Demo.fasta_call "fasta"))
    = (pre ++ EvForward 2 :: post)%list
    /\ In EvEval pre /\ (2 <= 32)%nat.
Proof.
  exists [EvParse "high.fa"; EvParse "low.fa"; EvRecords; EvRecords; EvEval;
          EvTokenize (kmer_texts ["ATGGCCGCC"; "ATGAAA"]); EvTokenize (kmer_texts ["ATGTTT"]);
          EvPrint "Computing steering vectors..."], [EvForward 1].
  assert (E : snd (fetch_steering_vector_from Demo.world None (Demo.fasta_call "fasta"))
              = ([EvParse "high.fa"; EvParse "low.fa"; EvRecords; EvRecords; EvEval;
                  EvTokenize (kmer_texts ["ATGGCCGCC"; "ATGAAA"]);
                  EvTokenize (kmer_texts ["ATGTTT"]);
                  EvPrint "Computing steering vectors..."] ++ EvForward 2 :: [EvForward 1])%list)
    by (vm_compute; reflexivity).
  split; [exact E|].
  exact (network_runs_in_eval_mode Demo.world None (Demo.fasta_call "fasta") _ _ _ E).
Defined.

(** ** The forward passes of a call *)

Lemma mapM_ok_trace {A B} (f : A -> M B) (l : list A) (ys : list B) (tr : trace) :
  mapM f l = (Ok ys, tr) ->
  tr = flat_map (fun x => snd (f x)) l
  /\ Forall2 (fun x y => fst (f x) = Ok y) l ys.
Proof.
  revert ys tr. induction l as [|x l IH]; intros ys tr H; simpl in H.
  - injection H as <- <-. split; [reflexivity | constructor].
  - apply bind_ok in H as (y & t1 & t2 & Hy & H & ->).
    apply bind_ok in H as (ys' & t3 & t4 & Hys & H & ->).
    injection H as <- <-. destruct (IH _ _ Hys) as (-> & Hall).
    cbn [flat_map]. rewrite Hy. cbn [fst snd]. rewrite app_nil_r.
    split; [reflexivity|]. constructor; [now rewrite Hy | exact Hall].
Qed.

(** The numbers of rows of the slices [t[i : i + 32]] for [i] in
    [range(0, n, 32)]. *)
Definition batch_sizes (n : nat) : list nat :=
  map (fun i => Nat.min 32 (n - i)) (py_range n 32).

Lemma sum_batch_sizes_upto (n c : nat) :
  list_sum (map (fun i => Nat.min 32 (n - i)) (map (fun k => (k * 32)%nat) (seq 0 c)))
  = Nat.min n (32 * c).
Proof.
  induction c as [|c IH]; [simpl; lia|].
  rewrite seq_S, !map_app, list_sum_app, IH. cbn [map Nat.add]. unfold list_sum, fold_right. lia.
Qed.

Lemma batch_sizes_spec (n : nat) :
  length (batch_sizes n) = ((n + 31) / 32)%nat
  /\ Forall (fun b => 1 <= b <= 32)%nat (batch_sizes n)
  /\ list_sum (batch_sizes n) = n.
Proof.
  unfold batch_sizes. split; [|split].
  - unfold py_range. rewrite !length_map, length_seq.
    replace (n + 32 - 1)%nat with (n + 31)%nat by lia. reflexivity.
  - apply List.Forall_map, List.Forall_forall. intros i Hi.
    apply py_range_bound in Hi; lia.
  - unfold py_range. rewrite sum_batch_sizes_upto.
    pose proof (Nat.div_mod_eq (n + 32 - 1) 32).
    pose proof (Nat.mod_upper_bound (n + 32 - 1) 32). lia.
Qed.

Lemma group_mean_trace W (m : Model) (ids : IdTensor) (v : T4) (tr : trace) n ds :
  dims ids = n :: ds -> length (rows ids) = n ->
  group_mean W m ids = (Ok v, tr) ->
  tr = map EvForward (batch_sizes n) /\ (1 <= n)%nat.
Proof.
  intros Hdims Hlen H. unfold group_mean, size in H. rewrite Hdims in H.
  cbn [nth_error] in H. rewrite bind_lift_ok in H.
  apply bind_ok in H as (chunks & t1 & t2 & Hchunks & H & ->).
  apply bind_ok in H as (t & t3 & t4 & [Hcat ->]%lift_ok & H & ->).
  injection H as _ <-. rewrite !app_nil_r.
  apply mapM_ok_trace in Hchunks as (-> & Hall).
  split.
  - unfold batch_sizes. rewrite flat_map_concat_map, map_map.
    assert (Heach : forall i, snd (let* batch := lift (slice_rows ids i 32) in
                                  let* hidden_states :=
                                    extern (EvForward (length (rows batch))) (m batch) in
                                  lift (torch_stack (tail hidden_states)))
                              = [EvForward (Nat.min 32 (n - i))]).
    { intros i. unfold slice_rows. rewrite Hdims, bind_lift_ok. cbn [rows].
      rewrite length_firstn, length_skipn, Hlen.
      unfold extern, bind, lift. destruct (m _) as [hs|w]; reflexivity. }
    clear Hall. induction (py_range n 32) as [|i l IH]; [reflexivity|].
    cbn [map concat]. rewrite Heach. cbn [app]. f_equal. exact IH.
  - destruct n as [|n]; [|lia]. inversion Hall as [E1 E2|]; subst. discriminate Hcat.
Qed.

(** X6: the events of a FASTA call that returns, with a tokenizer that
    pads: both files are parsed and read, the network is put in
    evaluation mode, the two groups are tokenized, and then the network
    runs over the high group and after that over the low group, over a
    group of [n] sequences in [ceil(n / 32)] batches of 1 to 32 sequences
    that add up to [n]. *)
Theorem fasta_call_forward_passes (W : World) (a : FetchArgs) (v : T4) (tr : trace) :
  pads_to_max_length (tokenizer a) ->
  PyStr.lower (data_type a) = "fasta" ->
  fetch_steering_vector W a = (Ok v, tr) ->
  exists high low tops lows top_batches low_batches,
    high_fa_path a = Some high /\ low_fa_path a = Some low
    /\ SeqIO_parse W high = Returns (Returns tops)
    /\ SeqIO_parse W low = Returns (Returns lows)
    /\ tr = ([EvParse high; EvParse low; EvRecords; EvRecords; EvEval;
              EvTokenize (kmer_texts tops); EvTokenize (kmer_texts lows);
              EvPrint "Computing steering vectors..."]
             ++ map EvForward top_batches ++ map EvForward low_batches)%list
    /\ length top_batches = ((length tops + 31) / 32)%nat
    /\ length low_batches = ((length lows + 31) / 32)%nat
    /\ Forall (fun b => 1 <= b <= 32)%nat (top_batches ++ low_batches)
    /\ list_sum top_batches = length tops
    /\ list_sum low_batches = length lows.
Proof.
  intros Hpad Hdt H. unfold fetch_steering_vector, fetch_steering_vector_from in H.
  apply bind_ok in H as ([tops lows] & tr0 & tr1 & Hsel & Hcon & ->).
  apply (select_fasta_ok W None a tops lows tr0 Hdt) in Hsel
    as (h & l & Hh & Hl & Hph & Hpl & ->).
  apply contrast_groups_ok in Hcon
    as (ids_top & t1 & ids_low & t2 & n & top_mean & t3 & low_mean & t4
        & d & Etop & Elow & _ & _ & Emt & Eml & _ & _ & ->).
  destruct (encode_padded _ _ _ _ _ Hpad Etop) as (Dtop & Ltop & _).
  destruct (encode_padded _ _ _ _ _ Hpad Elow) as (Dlow & Llow & _).
  destruct (group_mean_trace _ _ _ _ _ _ _ Dtop Ltop Emt) as (-> & _).
  destruct (group_mean_trace _ _ _ _ _ _ _ Dlow Llow Eml) as (-> & _).
  unfold encode_sequences, extern in Etop, Elow. fold (kmer_texts tops) in Etop.
  fold (kmer_texts lows) in Elow. injection Etop as _ <-. injection Elow as _ <-.
  destruct (batch_sizes_spec (length tops)) as (Hc1 & Hb1 & Hs1).
  destruct (batch_sizes_spec (length lows)) as (Hc2 & Hb2 & Hs2).
  exists h, l, tops, lows, (batch_sizes (length tops)), (batch_sizes (length lows)).
  repeat split; try assumption.
  apply Forall_app. now split.
Qed.

Lemma fasta_call_forward_passes_witness :
  exists tops lows top_batches low_batches,
    snd (fetch_steering_vector Demo.world (Demo.fasta_call "fasta"))
    = ([EvParse "high.fa"; EvParse "low.fa"; EvRecords; EvRecords; EvEval;
        EvTokenize (kmer_texts tops); EvTokenize (kmer_texts lows);
        EvPrint "Computing steering vectors..."]
       ++ map EvForward top_batches ++ map EvForward low_batches)%list
    /\ list_sum top_batches = 2%nat /\ list_sum low_batches = 1%nat.
Proof.
  destruct (returned_value _ demo_fasta_returned) as (v & tr & E).
  destruct (fasta_call_forward_passes Demo.world (Demo.fasta_call "fasta") v tr
              demo_tokenizer_pads eq_refl E)
    as (h & l & tops & lows & tb & lb & Hh & Hl & Hph & Hpl & Htr & _ & _ & _ & Hs1 & Hs2).
  injection Hh as <-. injection Hl as <-. injection Hph as <-. injection Hpl as <-.
  exists ["ATGGCCGCC"; "ATGAAA"], ["ATGTTT"], tb, lb. rewrite E. cbn [snd].
  split; [exact Htr|]. split; [exact Hs1 | exact Hs2].
Defined.

(** ** Batching does not change the mean *)

(** A network that treats every sequence of a batch on its own:
    [per_row row] is the list of the hidden states of one sequence, the
    embedding output first, and hidden state number [l] of a batch holds
    entry [l] of every row of the batch, in order. *)
Definition rowwise (m : Model) (per_row : list Z -> list T2) (depth : nat) : Prop :=
  forall batch,
    m batch = Returns (map (fun l => map (fun row => nth l (per_row row) []) (rows batch))
                           (seq 0 (S depth))).

(** Hidden state [l] for the sequences [rs], and the stack of the encoder
    layers [1 .. depth]. *)
Definition layer_of (per_row : list Z -> list T2) (l : nat) (rs : list (list Z)) : T3 :=
  map (fun row => nth l (per_row row) []) rs.

Definition layer_stack (per_row : list Z -> list T2) (depth : nat) (rs : list (list Z)) : T4 :=
  map (fun l => layer_of per_row l rs) (seq 1 depth).

Lemma mapM_ok_map {A B} (f : A -> M B) (g : A -> B) (l : list A) :
  (forall x, In x l -> fst (f x) = Ok (g x)) -> fst (mapM f l) = Ok (map g l).
Proof.
  induction l as [|x l IH]; intros H; [reflexivity|].
  cbn [mapM map]. specialize (IH (fun z Hz => H z (or_intror Hz))).
  specialize (H x (or_introl eq_refl)).
  destruct (f x) as [r t1]. cbn [fst] in H. subst r.
  destruct (mapM f l) as [r t2]. cbn [fst] in IH. subst r. reflexivity.
Qed.

Lemma firstn_plus {A} (a b : nat) (l : list A) :
  firstn (a + b) l = (firstn a l ++ firstn b (skipn a l))%list.
Proof.
  revert l. induction a as [|a IH]; intros l; [reflexivity|].
  destruct l as [|x l]; [now rewrite !firstn_nil|].
  cbn [Nat.add firstn skipn app]. now rewrite IH.
Qed.

Section Rowwise.
Variable W : World.
Variable m : Model.
Variable per_row : list Z -> list T2.
Variables depth T E : nat.
Hypothesis Hm : rowwise m per_row depth.
Hypothesis Hdepth : (1 <= depth)%nat.
Hypothesis HT : (1 <= T)%nat.

(** The rows whose hidden states have the promised shape. *)
Let shaped (row : list Z) : Prop :=
  length (per_row row) = S depth /\ Forall (rect2 T E) (per_row row).

Lemma layer_of_rect l rs :
  (l <= depth)%nat -> Forall shaped rs -> rect3 (length rs) T E (layer_of per_row l rs).
Proof.
  intros Hl Hrs. unfold layer_of. split; [now rewrite length_map|].
  apply List.Forall_map. eapply List.Forall_impl; [|exact Hrs].
  intros row (Hlen & Hall). rewrite List.Forall_forall in Hall. apply Hall, nth_In. lia.
Qed.

Lemma layer_stack_rect rs :
  Forall shaped rs -> rect4 depth (length rs) T E (layer_stack per_row depth rs).
Proof.
  intros Hrs. unfold layer_stack. split; [now rewrite length_map, length_seq|].
  apply List.Forall_map, List.Forall_forall. intros l Hl. apply in_seq in Hl.
  apply layer_of_rect; [lia | exact Hrs].
Qed.

Lemma layer_stack_app rs rs' :
  zip_with (fun x y => (x ++ y)%list) (layer_stack per_row depth rs)
           (layer_stack per_row depth rs')
  = layer_stack per_row depth (rs ++ rs').
Proof.
  unfold layer_stack. induction (seq 1 depth) as [|l ls IH]; [reflexivity|].
  cbn [map zip_with]. rewrite IH. unfold layer_of. now rewrite map_app.
Qed.

Lemma cat2_layer_stacks rs rs' :
  rs <> [] -> rs' <> [] -> Forall shaped rs -> Forall shaped rs' ->
  cat2_dim1 (layer_stack per_row depth rs) (layer_stack per_row depth rs')
  = Ok (layer_stack per_row depth (rs ++ rs')).
Proof.
  intros Hne Hne' Hrs Hrs'. unfold cat2_dim1.
  assert (Hshape : forall xs, xs <> [] -> Forall shaped xs ->
            shape4 (layer_stack per_row depth xs) = [depth; length xs; T; E]).
  { intros xs Hxs Hall. apply (shape4_rect depth (length xs) T E).
    - now apply layer_stack_rect.
    - exact Hdepth.
    - destruct xs; [congruence | simpl; lia].
    - exact HT. }
  rewrite (Hshape rs Hne Hrs), (Hshape rs' Hne' Hrs'). cbn [skipn].
  rewrite bool_decide_eq_true_2.
  - now rewrite layer_stack_app.
  - split; [|reflexivity]. unfold layer_stack. now rewrite !length_map.
Qed.

Variable ids : IdTensor.
Variable n : nat.
Hypothesis Hdims : dims ids = [n; T].
Hypothesis Hlen : length (rows ids) = n.
Hypothesis Hrows : Forall shaped (rows ids).

Lemma rowwise_batch i :
  (i < n)%nat ->
  fst (let* batch := lift (slice_rows ids i 32) in
       let* hidden_states := extern (EvForward (length (rows batch))) (m batch) in
       lift (torch_stack (tail hidden_states)))
  = Ok (layer_stack per_row depth (firstn 32 (skipn i (rows ids)))).
Proof.
  intros Hi. unfold slice_rows. rewrite Hdims, bind_lift_ok. cbn [rows].
  unfold extern. rewrite Hm. cbn [of_answer rows seq map].
  set (rs := firstn 32 (skipn i (rows ids))).
  rewrite (bind_step _ (fun hidden_states => lift (torch_stack (tail hidden_states)))
             _ [EvForward (length rs)] eq_refl).
  cbn [tail]. rewrite <- seq_shift, map_map.
  change (map (fun l => map (fun row => nth (S l) (per_row row) []) rs) (seq 0 depth))
    with (map (fun l => layer_of per_row (S l) rs) (seq 0 depth)).
  rewrite <- (map_map S (fun l => layer_of per_row l rs)), seq_shift.
  fold (layer_stack per_row depth rs).
  assert (Hrs : Forall shaped rs) by (unfold rs; now apply Forall_take, Forall_drop).
  assert (Hb : (1 <= length rs)%nat)
    by (unfold rs; rewrite length_firstn, length_skipn; lia).
  pose proof (layer_stack_rect rs Hrs) as (Hcount & Hall).
  rewrite (torch_stack_rect (length rs) T E); try assumption; [reflexivity|].
  intros Hnil. rewrite Hnil in Hcount. simpl in Hcount. lia.
Qed.

Lemma cat_rowwise_batches (c k : nat) :
  (1 <= k)%nat -> (32 * (k + c - 1) < n)%nat ->
  fold_left (fun acc u => let? x := acc in cat2_dim1 x u)
    (map (fun i => layer_stack per_row depth (firstn 32 (skipn i (rows ids))))
         (map (fun j => (j * 32)%nat) (seq k c)))
    (Ok (layer_stack per_row depth (firstn (32 * k) (rows ids))))
  = Ok (layer_stack per_row depth (firstn (32 * (k + c)) (rows ids))).
Proof.
  revert k. induction c as [|c IH]; intros k Hk Hbound.
  - cbn [seq map fold_left]. now rewrite Nat.add_0_r.
  - cbn [seq map fold_left rbind].
    rewrite cat2_layer_stacks.
    + replace (k * 32)%nat with (32 * k)%nat by lia.
      rewrite <- firstn_plus. replace (32 * k + 32)%nat with (32 * S k)%nat by lia.
      rewrite IH by lia. f_equal. f_equal. f_equal. lia.
    + intros Hnil. apply (f_equal (@length _)) in Hnil.
      rewrite length_firstn, Hlen in Hnil. cbn [length] in Hnil. lia.
    + intros Hnil. apply (f_equal (@length _)) in Hnil.
      rewrite length_firstn, length_skipn, Hlen in Hnil. cbn [length] in Hnil. lia.
    + now apply Forall_take.
    + now apply Forall_take, Forall_drop.
Qed.

Lemma group_mean_rowwise :
  (1 <= n)%nat ->
  fst (group_mean W m ids)
  = Ok (map (fun l => [mean_over (np_mean W) (layer_of per_row l (rows ids))]) (seq 1 depth)).
Proof.
  intros Hn. unfold group_mean, size. rewrite Hdims. cbn [nth_error]. rewrite bind_lift_ok.
  pose proof (mapM_ok_map
                (fun i =>
                   let* batch := lift (slice_rows ids i 32) in
                   let* hidden_states := extern (EvForward (length (rows batch))) (m batch) in
                   lift (torch_stack (tail hidden_states)))
                (fun i => layer_stack per_row depth (firstn 32 (skipn i (rows ids))))
                (py_range n 32)) as Hchunks.
  destruct (mapM _ (py_range n 32)) as [r tr]. cbn [fst] in Hchunks.
  rewrite Hchunks; [|intros i Hi; apply rowwise_batch, (py_range_bound n 32 i); [lia | exact Hi]].
  clear Hchunks. unfold bind at 1.
  assert (Hcat : torch_cat_dim1
                   (map (fun i => layer_stack per_row depth (firstn 32 (skipn i (rows ids))))
                        (py_range n 32))
                 = Ok (layer_stack per_row depth (rows ids))).
  { unfold py_range. set (c := ((n + 32 - 1) / 32)%nat).
    assert (Hc : (32 * (c - 1) < n /\ n <= 32 * c /\ 1 <= c)%nat).
    { unfold c. pose proof (Nat.div_mod_eq (n + 32 - 1) 32).
      pose proof (Nat.mod_upper_bound (n + 32 - 1) 32). lia. }
    destruct c as [|c]; [lia|]. cbn [seq map torch_cat_dim1]. change (skipn (0 * 32) (rows ids)) with (rows ids).
    pose proof (cat_rowwise_batches c 1) as Hfold. cbn [Nat.mul Nat.add] in Hfold.
    replace (32 * 1)%nat with 32%nat in Hfold by lia.
    rewrite Hfold by lia. f_equal. f_equal. apply firstn_all2. lia. }
  rewrite Hcat. cbn [lift bind ret fst]. f_equal.
  unfold mean_axis1, layer_stack. now rewrite map_map.
Qed.
End Rowwise.


(** X7: for a network that treats every sequence of a batch on its own,
    the batches leave no trace in the result: the mean of a group is, for
    every encoder layer, the mean over all sequences of the group of that
    layer's hidden state, the embedding output left out. *)
Theorem group_mean_ignores_batching (W : World) (m : Model)
    (per_row : list Z -> list T2) (depth T E : nat) (ids : IdTensor) (n : nat) :
  rowwise m per_row depth -> (1 <= depth)%nat -> (1 <= T)%nat ->
  dims ids = [n; T] -> length (rows ids) = n -> (1 <= n)%nat ->
  Forall (fun row => length (per_row row) = S depth /\ Forall (rect2 T E) (per_row row))
         (rows ids) ->
  fst (group_mean W m ids)
  = Ok (map (fun l => [mean_over (np_mean W)
                         (map (fun row => nth l (per_row row) []) (rows ids))])
            (seq 1 depth)).
Proof.
  intros Hm Hdepth HT Hdims Hlen Hn Hrows.
  exact (group_mean_rowwise W m per_row depth T E Hm Hdepth HT ids n Hdims Hlen Hrows Hn).
Qed.

Lemma group_mean_ignores_batching_witness :
  fst (group_mean Demo.world Demo.toy_model DemoCalls.long_batch)
  = Ok (map (fun l => [mean_over Demo.mean
                         (map (fun row => nth l (DemoCalls.per_row row) []) (rows DemoCalls.long_batch))])
            (seq 1 2)).
Proof.
  apply (group_mean_ignores_batching Demo.world Demo.toy_model DemoCalls.per_row 2 2 2
           DemoCalls.long_batch 33).
  - intros batch. reflexivity.
  - lia.
  - lia.
  - reflexivity.
  - reflexivity.
  - lia.
  - apply List.Forall_map, Forall_true. intros i. split; [reflexivity|].
    repeat constructor.
Defined.

(** ** Empty groups *)

Lemma group_mean_no_rows W (m : Model) ids T :
  dims ids = [0%nat; T] ->
  group_mean W m ids
  = (Raise (External "torch.cat(): expected a non-empty list of Tensors"), []).
Proof.
  intros Hdims. unfold group_mean, size. rewrite Hdims. reflexivity.
Qed.

(** X8: with a tokenizer that pads to [max_length], a call one of whose
    groups is empty returns no vector.  When the high group is empty and
    the tokenizer accepts both groups, the call ends in the exception
    that [torch.cat] raises for an empty list (line 93), after the
    tokenizer calls and the progress message and without a forward
    pass. *)
Theorem empty_group_gives_no_vector (W : World) (df : option DataFrame) (a : FetchArgs)
    (top low : list string) (tr0 : trace) :
  pads_to_max_length (tokenizer a) ->
  select_sequences W df a = (Ok (top, low), tr0) ->
  top = [] \/ low = [] ->
  returned (fetch_steering_vector_from W df a) = false
  /\ (top = [] ->
      forall ids_top ids_low,
        tokenizer a [] PadMaxLength true 1024%nat = Returns ids_top ->
        tokenizer a (kmer_texts low) PadMaxLength true 1024%nat = Returns ids_low ->
        fetch_steering_vector_from W df a
        = (Raise (External "torch.cat(): expected a non-empty list of Tensors"),
           (tr0 ++ [EvEval; EvTokenize []; EvTokenize (kmer_texts low);
                    EvPrint "Computing steering vectors..."])%list)).
Proof.
  intros Hpad Hsel Hempty. split.
  - unfold fetch_steering_vector_from. rewrite (bind_step _ _ _ _ Hsel).
    destruct (contrast_groups W a top low) as [[v|e] tr] eqn:Hcon; [|reflexivity].
    apply contrast_groups_ok in Hcon
      as (ids_top & t1 & ids_low & t2 & n & top_mean & t3 & low_mean & t4
          & d & Etop & Elow & _ & _ & Emt & Eml & _).
    destruct (encode_padded _ _ _ _ _ Hpad Etop) as (Dtop & _).
    destruct (encode_padded _ _ _ _ _ Hpad Elow) as (Dlow & _).
    destruct Hempty as [-> | ->]; cbn [length] in *.
    + rewrite (group_mean_no_rows W (model a) _ _ Dtop) in Emt. discriminate Emt.
    + rewrite (group_mean_no_rows W (model a) _ _ Dlow) in Eml. discriminate Eml.
  - intros -> ids_top ids_low Etop Elow.
    unfold fetch_steering_vector_from. rewrite (bind_step _ _ _ _ Hsel).
    assert (E1 : encode_sequences [] (tokenizer a) 1024 = (Ok ids_top, [EvTokenize []]))
      by (unfold encode_sequences, extern; cbn [map]; now rewrite Etop).
    assert (E2 : encode_sequences low (tokenizer a) 1024
                 = (Ok ids_low, [EvTokenize (kmer_texts low)]))
      by (unfold encode_sequences, extern; fold (kmer_texts low); now rewrite Elow).
    destruct (encode_padded _ _ _ _ _ Hpad E1) as (Dtop & _).
    destruct (encode_padded _ _ _ _ _ Hpad E2) as (Dlow & _).
    unfold contrast_groups.
    rewrite (bind_step (emit EvEval) _ tt [EvEval] eq_refl).
    rewrite (bind_step _ _ _ _ E1), (bind_step _ _ _ _ E2).
    assert (Hn1 : size ids_top 1 = Ok 1024%nat) by (unfold size; now rewrite Dtop).
    assert (Hn2 : size ids_low 1 = Ok 1024%nat) by (unfold size; now rewrite Dlow).
    rewrite Hn1, Hn2, !bind_lift_ok.
    rewrite Nat.eqb_refl. cbn [negb].
    rewrite (bind_step (emit _) _ tt [EvPrint "Computing steering vectors..."] eq_refl).
    cbn [length] in Dtop. rewrite (group_mean_no_rows W (model a) _ _ Dtop).
    reflexivity.
Qed.

Lemma empty_group_gives_no_vector_witness :
  returned (fetch_steering_vector_from Demo.world None DemoCalls.empty_low_call) = false.
Proof.
  apply (proj1 (empty_group_gives_no_vector Demo.world None DemoCalls.empty_low_call
                  ["ATGGCCGCC"; "ATGAAA"] []
                  [EvParse "high.fa"; EvParse "empty.fa"; EvRecords; EvRecords]
                  demo_tokenizer_pads eq_refl (or_intror eq_refl))).
Defined.

(** ** The same group twice *)









(** ** The program entry, run in a namespace that binds [model_path] *)

Lemma lower_char_idempotent (c : ascii) :
  PyStr.lower_char (PyStr.lower_char c) = PyStr.lower_char c.
Proof.
  destruct c as [[] [] [] [] [] [] [] []]; vm_compute; reflexivity.
Qed.

Lemma lower_idempotent (s : string) : PyStr.lower (PyStr.lower s) = PyStr.lower s.
Proof.
  induction s as [|c s IH]; [reflexivity|].
  cbn [PyStr.lower]. now rewrite lower_char_idempotent, IH.
Qed.

Lemma load_name_insert (g : gmap string pyobj) (k x : string) (v : pyobj) :
  load_name (<[k := v]> g) x = if String.eqb k x then Ok v else load_name g x.
Proof.
  unfold load_name. destruct (String.eqb_spec k x) as [->|Hne].
  - now rewrite lookup_insert_eq.
  - now rewrite lookup_insert_ne.
Qed.

Lemma bind_event {A B} (m : M A) (k : A -> M B) (r : result B) (tr : trace) (ev : event) :
  bind m k = (r, tr) -> In ev tr -> ~ In ev (snd m) ->
  exists x t1 t2, m = (Ok x, t1) /\ k x = (r, t2) /\ In ev t2.
Proof.
  unfold bind. destruct m as [[x|e] t1]; cbn [snd].
  - destruct (k x) as [r' t2] eqn:Hk. intros [= -> <-] Hin Hnot.
    exists x, t1, t2. repeat split; [exact Hk|].
    apply in_app_or in Hin as [Hin|Hin]; [contradiction | exact Hin].
  - intros [= <- <-] Hin Hnot. contradiction.
Qed.

Definition is_save (e : event) : bool :=
  match e with
  | EvSave _ => true
  | _ => false
  end.

Lemma fetch_never_saves W a :
  only (fun e => is_save e = false) (fetch_steering_vector W a).
Proof.
  unfold fetch_steering_vector, fetch_steering_vector_from.
  apply only_bind.
  - unfold select_sequences.
    repeat first
      [ apply only_ret | apply only_raise | apply only_lift
      | apply only_extern; reflexivity
      | apply only_bind; [|intros ?]
      | match goal with
        | |- only _ (if ?b then _ else _) => destruct b
        | |- only _ (match ?x with _ => _ end) => destruct x
        end ].
  - intros [top low]. unfold contrast_groups, encode_sequences, group_mean.
    repeat first
      [ apply only_ret | apply only_raise | apply only_lift
      | apply only_emit; reflexivity
      | apply only_extern; reflexivity
      | apply only_mapM; intros ?
      | apply only_bind; [|intros ?]
      | match goal with
        | |- only _ (if ?b then _ else _) => destruct b
        end ].
Qed.

Ltac not_save :=
  first
    [ cbn [lift extern emit ret raise snd]; intros Habs; repeat destruct Habs as [Habs|Habs];
      solve [discriminate Habs | exact Habs]
    | intros Habs;
      match type of Habs with
      | In _ (snd (fetch_steering_vector ?W ?a)) =>
          pose proof (fetch_never_saves W a) as Hquiet; unfold only in Hquiet;
          rewrite List.Forall_forall in Hquiet; apply Hquiet in Habs; discriminate Habs
      end ].

Ltac entry_step H Hin :=
  lazymatch type of H with
  | bind (match ?x with _ => _ end) _ = _ => destruct x
  | bind (if ?b then _ else _) _ = _ => destruct b
  | (let (_, _) := ?p in _) = _ => destruct p
  | bind _ _ = _ =>
      let x := fresh "x" in
      let t1 := fresh "t" in
      let t2 := fresh "t" in
      let Hm := fresh "Hm" in
      let H' := fresh "H" in
      let Hin' := fresh "Hin" in
      destruct (bind_event _ _ _ _ _ H Hin) as (x & t1 & t2 & Hm & H' & Hin');
      [ not_save
      | clear H Hin; rename H' into H; rename Hin' into Hin; cbv beta zeta in H;
        try (unfold raise in Hm; discriminate Hm);
        try (apply lift_ok in Hm as (Hm & _);
             repeat rewrite load_name_insert in Hm;
             cbn [String.eqb Ascii.eqb Bool.eqb rbind] in Hm) ]
  end.

Lemma bind_event_split {A B} (m : M A) (k : A -> M B) (r : result B) (tr : trace)
    (ev : event) :
  bind m k = (r, tr) -> In ev tr ->
  In ev (snd m) \/ exists x t1 t2, m = (Ok x, t1) /\ k x = (r, t2) /\ In ev t2.
Proof.
  unfold bind. destruct m as [[x|e] t1]; cbn [snd].
  - destruct (k x) as [r' t2] eqn:Hk. intros [= -> <-] Hin.
    apply in_app_or in Hin as [Hin|Hin]; [now left|].
    right. now exists x, t1, t2.
  - intros [= <- <-] Hin. now left.
Qed.

(** X12: the block of lines 126-157, run in any namespace, reaches
    [np.save] (line 156) only when the parsed arguments have a
    [data_type] that is 'fasta' up to capitalisation, a [high_fa_path], a
    [low_fa_path] and a [save_name] (none of them [None], the default of
    the last three); the file it then writes is
    [save_dir/steering_vectors_<save_name>.npy]. *)
Theorem save_needs_fasta_files_and_name (g : gmap string pyobj) (W : World)
    (argv : list string) (r : result unit) (tr : trace) (path : string) :
  main g W argv = (r, tr) -> In (EvSave path) tr ->
  exists arguments attrs dt high low name dir,
    parse_args W arguments argv = Returns attrs
    /\ getattr (PyNamespace attrs) "data_type" = Ok (PyStr dt)
    /\ PyStr.lower dt = "fasta"
    /\ getattr (PyNamespace attrs) "high_fa_path" = Ok (PyStr high)
    /\ getattr (PyNamespace attrs) "low_fa_path" = Ok (PyStr low)
    /\ getattr (PyNamespace attrs) "save_name" = Ok (PyStr name)
    /\ getattr (PyNamespace attrs) "save_dir" = Ok (PyStr dir)
    /\ path = path_join dir ("steering_vectors_" ++ name ++ ".npy").
Proof.
  intros H Hin. unfold main in H.
  repeat entry_step H Hin.
  all: repeat match goal with
         | Hm : Ok _ = Ok _ |- _ => injection Hm as <-
         end.
  all: match goal with
       | Hm : extern EvParseArgs (parse_args ?W0 ?args ?argv0) = (Ok _, _) |- _ =>
           unfold extern in Hm;
           destruct (parse_args W0 args argv0) as [attrs|w] eqn:Hparse;
           cbn [of_answer] in Hm; [|discriminate Hm]; injection Hm as <- _
       end.
  all: unfold as_str, concat3 in *.
  all: repeat match goal with
         | Hm : match ?v with _ => _ end = Ok _ |- _ =>
             is_var v; destruct v; try discriminate Hm; injection Hm as <-
         end.
  all: match goal with
       | Hf : fetch_steering_vector ?W0 _ = (Ok _, _) |- _ =>
           pose proof (no_table_mode_returns W0 _ _ _ Hf) as Hdt;
           cbn [data_type] in Hdt; rewrite lower_idempotent in Hdt;
           repeat match type of Hf with
                  | context [match ?v with _ => _ end] =>
                      is_var v; destruct v;
                      try (first
                             [ rewrite (missing_path_raises W0 _
                                          (no_table_mode_returns W0 _ _ _ Hf)
                                          (or_introl eq_refl)) in Hf
                             | rewrite (missing_path_raises W0 _
                                          (no_table_mode_returns W0 _ _ _ Hf)
                                          (or_intror eq_refl)) in Hf ];
                           discriminate Hf)
                  end
       end.
  all: destruct (bind_event_split _ _ _ _ _ H Hin)
         as [Hhere | (x' & t1' & t2' & _ & H' & Hin')];
    [ cbn [extern snd] in Hhere; destruct Hhere as [[= <-]|[]];
      do 7 eexists; repeat split; (eassumption || reflexivity)
    | exfalso; clear H Hin; cbv beta zeta in H'; repeat entry_step H' Hin';
      unfold emit in H'; injection H' as _ <-;
      destruct Hin' as [Habs|[]]; discriminate Habs ].
Qed.

Lemma demo_cli_run :
  snd (main DemoCli.namespace DemoCli.cli_world DemoCli.argv)
  = [EvParseArgs; EvLoad "get_tokenizer"; EvLoad "PeftConfig.from_pretrained";
     EvLoad "load_model"; EvLoad "PeftModel.from_pretrained"; EvLoad "merge_and_unload";
     EvTo "cuda:0";
     EvParse "high.fa"; EvParse "low.fa"; EvRecords; EvRecords; EvEval;
     EvTokenize (kmer_texts ["ATGGCCGCC"; "ATGAAA"]); EvTokenize (kmer_texts ["ATGTTT"]);
     EvPrint "Computing steering vectors..."; EvForward 2; EvForward 1;
     EvPrintShape [2%nat; 1%nat; 1024%nat; 2%nat]; EvMakedirs "../data";
     EvSave "../data/steering_vectors_demo.npy";
     EvPrint "Saved steering vectors to ../data/steering_vectors_demo.npy"].
Proof. vm_compute. reflexivity. Qed.

Lemma save_needs_fasta_files_and_name_witness :
  In (EvSave "../data/steering_vectors_demo.npy")
     (snd (main DemoCli.namespace DemoCli.cli_world DemoCli.argv))
  /\ exists arguments attrs dt high low name dir,
       parse_args DemoCli.cli_world arguments DemoCli.argv = Returns attrs
       /\ getattr (PyNamespace attrs) "data_type" = Ok (PyStr dt)
       /\ PyStr.lower dt = "fasta"
       /\ getattr (PyNamespace attrs) "high_fa_path" = Ok (PyStr high)
       /\ getattr (PyNamespace attrs) "low_fa_path" = Ok (PyStr low)
       /\ getattr (PyNamespace attrs) "save_name" = Ok (PyStr name)
       /\ getattr (PyNamespace attrs) "save_dir" = Ok (PyStr dir)
       /\ "../data/steering_vectors_demo.npy"
          = path_join dir ("steering_vectors_" ++ name ++ ".npy")%string.
Proof.
  assert (Hin : In (EvSave "../data/steering_vectors_demo.npy")
                   (snd (main DemoCli.namespace DemoCli.cli_world DemoCli.argv)))
    by (rewrite demo_cli_run; repeat (first [left; reflexivity | right])).
  split; [exact Hin|].
  destruct (main DemoCli.namespace DemoCli.cli_world DemoCli.argv) as [r tr] eqn:E.
  exact (save_needs_fasta_files_and_name DemoCli.namespace DemoCli.cli_world DemoCli.argv
           r tr "../data/steering_vectors_demo.npy" E Hin).
Defined.

(** The world in which [get_tokenizer()] answers [t]. *)
Definition with_get_tokenizer (W : World) (t : answer Tokenizer) : World :=
  {| act_prec := act_prec W; act_emax := act_emax W; np_mean := np_mean W;
     SeqIO_parse := SeqIO_parse W; parse_args := parse_args W;
     get_tokenizer := t;
     PeftConfig_from_pretrained := PeftConfig_from_pretrained W;
     load_model := load_model W;
     PeftModel_from_pretrained := PeftModel_from_pretrained W;
     merge_and_unload := merge_and_unload W;
     model_to := model_to W;
     os_path_exists := os_path_exists W; os_makedirs := os_makedirs W;
     np_save := np_save W |}.

Lemma bind_head_ext {A B} (m m' : M A) (k k' : A -> M B) :
  m = m' -> (forall x, k x = k' x) -> bind m k = bind m' k'.
Proof. intros -> H. now apply bind_ext. Qed.

Lemma bind_extern_returns_ext {A B C} (e : event) (x : A) (y : B)
    (k : A -> M C) (k' : B -> M C) :
  k x = k' y -> bind (extern e (Returns x)) k = bind (extern e (Returns y)) k'.
Proof. intros H. unfold extern, bind. cbn [of_answer]. now rewrite H. Qed.

Lemma fetch_with_get_tokenizer W t a :
  fetch_steering_vector (with_get_tokenizer W t) a = fetch_steering_vector W a.
Proof. reflexivity. Qed.

Ltac same_head :=
  first
    [ reflexivity
    | rewrite !fetch_with_get_tokenizer; reflexivity
    | repeat rewrite load_name_insert; cbn [String.eqb Ascii.eqb Bool.eqb]; reflexivity ].

Ltac same_step :=
  lazymatch goal with
  | |- bind (extern (EvLoad "get_tokenizer") _) _ = bind _ _ =>
      apply bind_extern_returns_ext
  | |- (let (_, _) := ?p in _) = _ => destruct p
  | |- bind _ _ = bind _ _ => apply bind_head_ext; [same_head | intros ?]
  | |- _ => same_head
  end.

(** X13: the tokenizer that [get_tokenizer()] returns on line 142 plays
    no part in what follows: the block of lines 126-157 has the same
    outcome and the same events whichever tokenizer that call hands out
    (the one passed on line 150 comes from [load_model]). *)
Theorem entry_ignores_get_tokenizer (g : gmap string pyobj) (W : World)
    (argv : list string) (t t' : Tokenizer) :
  main g (with_get_tokenizer W (Returns t)) argv
  = main g (with_get_tokenizer W (Returns t')) argv.
Proof.
  unfold main. cbv zeta.
  cbn [with_get_tokenizer parse_args get_tokenizer PeftConfig_from_pretrained load_model
       PeftModel_from_pretrained merge_and_unload os_path_exists os_makedirs np_save].
  repeat same_step.
Qed.

Lemma load_name_safe g x : rsafe not_assertion (load_name g x).
Proof. unfold load_name. safe. Qed.

Lemma getattr_safe v name : rsafe not_assertion (getattr v name).
Proof. unfold getattr. safe. Qed.

Lemma as_str_safe v : rsafe not_assertion (as_str v).
Proof. unfold as_str. safe. Qed.

Lemma concat3_safe x v y : rsafe not_assertion (concat3 x v y).
Proof. unfold concat3. safe. Qed.

#[local] Hint Resolve load_name_safe getattr_safe as_str_safe concat3_safe : safe.

Lemma add_argument_safe g dest default :
  (forall g', rsafe not_assertion (default g')) ->
  rsafe not_assertion (add_argument g dest default).
Proof. intros H. unfold add_argument. safe. Qed.

Definition not_line_44 (e : exn) : Prop := e <> AssertionError 44.

Lemma not_assertion_not_line_44 e : not_assertion e -> not_line_44 e.
Proof. intros H ->. exact H. Qed.

Lemma contrast_groups_not_line_44 W a top low :
  msafe not_line_44 (contrast_groups W a top low).
Proof.
  unfold contrast_groups.
  pose proof group_mean_safe. pose proof encode_sequences_safe.
  repeat first
    [ apply msafe_ret | apply msafe_emit
    | apply msafe_raise; unfold not_line_44; congruence
    | apply (msafe_weaken not_assertion); [apply not_assertion_not_line_44 | solve [safe]]
    | apply msafe_bind; [|intros ? _ _]
    | match goal with
      | |- msafe _ (if ?b then _ else _) => destruct b
      end ].
Qed.

(** The assertion of line 44 fails before anything else has happened. *)
Lemma line_44_is_immediate W a tr :
  fetch_steering_vector W a = (Raise (AssertionError 44), tr) -> tr = [].
Proof.
  unfold fetch_steering_vector, fetch_steering_vector_from. intros H.
  apply bind_raise in H as [H | ([top low] & tr1 & tr2 & _ & H & _)];
    [|now apply contrast_groups_not_line_44 in H].
  unfold select_sequences in H.
  apply bind_raise in H as [H | ([[col d] fa] & tr1 & tr2 & _ & H & _)].
  - destruct (String.eqb _ "mfe"); [discriminate H|].
    destruct (String.eqb _ "cai"); [discriminate H|].
    destruct (String.eqb _ "mfe_cai").
    { destruct (lambda_ a); [|discriminate H]. cbn in H. discriminate H. }
    destruct (String.eqb _ "fasta"); [|discriminate H].
    destruct (high_fa_path a) as [h|], (low_fa_path a) as [l|];
      try (now injection H as <-).
    exfalso. revert H.
    assert (Hs : msafe not_assertion
                   (let* high_fa := extern (EvParse h) (SeqIO_parse W h) in
                    let* low_fa := extern (EvParse l) (SeqIO_parse W l) in
                    ret (@None string, @None DataFrame, Some (high_fa, low_fa)))) by safe.
    intros H. exact (Hs _ _ H).
  - exfalso. revert H.
    assert (Hs : msafe not_assertion
                   (if String.eqb (PyStr.lower (data_type a)) "fasta"
                    then let* (high_fa, low_fa) := lift (load_local "high_fa" fa) in
                         let* top_seqs := extern EvRecords high_fa in
                         let* low_seqs := extern EvRecords low_fa in
                         ret (top_seqs, low_seqs)
                    else match percent a with
                         | Some p =>
                             let* (_, top_rows, bottom_rows) :=
                               lift (percent_rows d (sequences a) p (min_seq_len a)
                                       (max_seq_len a) col) in
                             lift (rows_to_sequences (sequences a) top_rows bottom_rows)
                         | None =>
                             raise (ValueError
                               "Must provide either 'percent' or 'cai_threshold' (only for 'cai').")
                         end)).
    { destruct (String.eqb _ _); [safe|]. destruct (percent a); safe. }
    intros H. exact (Hs _ _ H).
Qed.

Ltac entry_safe :=
  first
    [ solve [safe]
    | apply msafe_lift, add_argument_safe; intros ?; solve [safe]
    | match goal with
      | |- msafe _ (if ?b then _ else _) => destruct b; solve [safe]
      end ].

Ltac raise_step H :=
  lazymatch type of H with
  | (let (_, _) := ?p in _) = _ => destruct p
  | bind (match ?x with _ => _ end) _ = _ => destruct x
  | bind (fetch_steering_vector _ _) _ = _ => fail
  | bind ?m _ = (Raise _, _) =>
      let x := fresh "x" in
      let t1 := fresh "t" in
      let t2 := fresh "t" in
      let Hm := fresh "Hm" in
      let Hs := fresh "Hs" in
      apply bind_raise in H as [H | (x & t1 & t2 & Hm & H & ->)];
      [ exfalso; assert (Hs : msafe not_assertion m) by entry_safe; exact (Hs _ _ H)
      | cbv beta zeta in H;
        try (unfold raise in Hm; discriminate Hm);
        first [ apply lift_ok in Hm as (_ & ->)
              | unfold extern, emit, ret in Hm; injection Hm as _ <- ] ]
  end.

(** X14: when the block of lines 126-157 ends in the assertion failure
    of line 44 (a FASTA path is missing), the arguments have been parsed,
    the tokenizer, the adapter configuration, the base network and the
    adapter have been loaded and merged, and the network has been moved
    to the device (line 148) before, and nothing else has happened. *)
Theorem missing_path_is_found_after_loading (g : gmap string pyobj) (W : World)
    (argv : list string) (tr : trace) :
  main g W argv = (Raise (AssertionError 44), tr) ->
  tr = [EvParseArgs; EvLoad "get_tokenizer"; EvLoad "PeftConfig.from_pretrained";
        EvLoad "load_model"; EvLoad "PeftModel.from_pretrained"; EvLoad "merge_and_unload";
        EvTo "cuda:0"].
Proof.
  intros H. unfold main in H.
  repeat raise_step H.
  apply bind_raise in H as [H | (v & tf1 & tf2 & _ & H & ->)].
  - apply line_44_is_immediate in H. subst. reflexivity.
  - exfalso. cbv beta zeta in H. repeat raise_step H.
    all: unfold emit in H; discriminate H.
Qed.

Lemma missing_path_is_found_after_loading_witness :
  snd (main (<["model_path" := PyStr "checkpoint"]> module_namespace) Demo.world [])
  = [EvParseArgs; EvLoad "get_tokenizer"; EvLoad "PeftConfig.from_pretrained";
     EvLoad "load_model"; EvLoad "PeftModel.from_pretrained"; EvLoad "merge_and_unload";
     EvTo "cuda:0"].
Proof.
  rewrite main_with_model_path_goes_on.
  exact (missing_path_is_found_after_loading _ _ _ _ main_with_model_path_goes_on).
Defined.
